(** * GeoFull: the address enrichment pipeline

    A shallow embedding of [app/models.py], [app/schemas.py], [app/crud.py],
    [app/processing.py] and the endpoints of [app/main.py].  Python values decoded from JSON are a tagged
    union, the record store is a finite map from ids to rows, the two remote
    services are oracles bundled in a [world], and the pipeline is written in
    a small state-and-exception monad that also keeps a log of what was
    called, each entry with the committed store at that moment.

    Text is modelled by strings of 8-bit characters read as the code points
    0 to 255.  The columns [created_at] and [updated_at] are filled by the
    database server, never by the Python code, and are not part of a row
    here: an equality of rows or stores is an equality of the other
    columns.  Of the checks made at commit time only NOT NULL is in the
    commit of the model; what the database and its driver refuse beyond it
    is described by [storable_update], and a property that says a commit
    went through is stated for the values that pass it. *)

From stdpp Require Import gmap strings list fin_maps pretty.
From Stdlib Require Import Ascii ZArith Sorted.

Set Warnings "-register-all".

Open Scope string_scope.
Open Scope Z_scope.

(** ** Python values and exceptions *)

(** What [json.loads] and [response.json()] can return.  [F] is the type of
    Python floats; an object keeps its bindings in a list and the first
    binding of a key is the one a lookup sees. *)
Inductive json (F : Type) : Type :=
  | JNull
  | JBool (b : bool)
  | JInt (z : Z)
  | JFloat (f : F)
  | JStr (s : string)
  | JArr (items : list (json F))
  | JObj (fields : list (string * json F)).

Arguments JNull {F}.
Arguments JBool {F} b.
Arguments JInt {F} z.
Arguments JFloat {F} f.
Arguments JStr {F} s.
Arguments JArr {F} items.
Arguments JObj {F} fields.

(** The subclasses of [requests.exceptions.RequestException] the geocoder
    can meet. *)
Inductive request_error : Type :=
  | ConnectionError
  | Timeout
  | HTTPError
  | JSONDecodeError
  | OtherRequestError.

(** Exceptions, all of them subclasses of [Exception]. *)
Inductive exn : Type :=
  | RequestException (k : request_error)
  | TypeError
  | ValueError
  | KeyError
  | IndexError
  | AttributeError
  | OverflowError
  | ValidationError
  | IntegrityError
  | InvalidRequestError
  | OtherException (name : string).

(** A call either returns or raises. *)
Inductive result (A : Type) : Type :=
  | Ret (a : A)
  | Raise (e : exn).

Arguments Ret {A} a.
Arguments Raise {A} e.

Definition rbind {A B : Type} (r : result A) (k : A -> result B) : result B :=
  match r with
  | Ret a => k a
  | Raise e => Raise e
  end.

Declare Scope result_scope.
Delimit Scope result_scope with result.
Notation "x <- r ;; k" := (rbind r (fun x => k))
  (at level 100, r at next level, right associativity) : result_scope.

(** The library functions the code calls and this development does not
    define: [float(int)], [float(str)], the truth value of a float and
    [json.loads] ([None] stands for the exception each of them raises). *)
Class PyLib (F : Type) : Type := {
  float_of_int : Z -> option F;
  float_of_str : string -> option F;
  float_nonzero : F -> bool;
  json_loads : string -> option (json F)
}.

(** ** app/models.py *)

Inductive AddressStatus : Type :=
  | PENDING
  | NORMALIZED
  | VERIFIED.

Definition uuid : Type := N.

(** A row: the columns of [Address] other than [created_at] and
    [updated_at], which the server writes, the second at every UPDATE. *)
Record Address (F : Type) : Type := mkAddress {
  id : uuid;
  original_address : string;
  normalized_address : option string;
  suggested_address : option string;
  street_info : option string;
  neighborhood : option string;
  apartment_info : option string;
  notes : option string;
  latitude : option F;
  longitude : option F;
  postal_code : option string;
  status : AddressStatus
}.

Arguments mkAddress {F}.
Arguments id {F}.
Arguments original_address {F}.
Arguments normalized_address {F}.
Arguments suggested_address {F}.
Arguments street_info {F}.
Arguments neighborhood {F}.
Arguments apartment_info {F}.
Arguments notes {F}.
Arguments latitude {F}.
Arguments longitude {F}.
Arguments postal_code {F}.
Arguments status {F}.

(** ** app/schemas.py *)

(** [AddressUpdate]: every field is optional and the model remembers which
    ones the constructor was given ([model_dump(exclude_unset=True)]).  The
    outer [option] is "was it set", the inner one is the value, [None] being
    Python's [None]. *)
Record AddressUpdate (F : Type) : Type := mkAddressUpdate {
  u_original_address : option (option string);
  u_normalized_address : option (option string);
  u_suggested_address : option (option string);
  u_street_info : option (option string);
  u_neighborhood : option (option string);
  u_apartment_info : option (option string);
  u_notes : option (option string);
  u_latitude : option (option F);
  u_longitude : option (option F);
  u_postal_code : option (option string);
  u_status : option (option AddressStatus)
}.

Arguments mkAddressUpdate {F}.
Arguments u_original_address {F}.
Arguments u_normalized_address {F}.
Arguments u_suggested_address {F}.
Arguments u_street_info {F}.
Arguments u_neighborhood {F}.
Arguments u_apartment_info {F}.
Arguments u_notes {F}.
Arguments u_latitude {F}.
Arguments u_longitude {F}.
Arguments u_postal_code {F}.
Arguments u_status {F}.

(** The remote services, as one run of the pipeline sees them. *)
Inductive probe : Type :=
  | ProbeRaises (e : exn)
  | ProbeFalsy
  | ProbeOk.

Inductive generation : Type :=
  | GenRaises (e : exn)
  | GenText (text : string).

Record http_response (F : Type) : Type := mkResponse {
  status_code : Z;
  response_json : result (json F)
}.

Arguments mkResponse {F}.
Arguments status_code {F}.
Arguments response_json {F}.

(** [get_model] is the outcome of [genai.get_model(...)];
    [generate_content] answers for [model.generate_content(prompt)] followed
    by [response.text], as a function of the raw address put in the fixed
    prompt; [requests_get] answers for the GET on the search endpoint, as a
    function of the query [q] (the other parameters are constants). *)
Record world (F : Type) : Type := mkWorld {
  get_model : probe;
  generate_content : string -> generation;
  requests_get : string -> result (http_response F)
}.

Arguments mkWorld {F}.
Arguments get_model {F}.
Arguments generate_content {F}.
Arguments requests_get {F}.

(** ** Python builtins used by the code *)

(** [str.strip()] removes the characters for which [str.isspace] holds. *)
Definition isspace (c : ascii) : bool :=
  let n := nat_of_ascii c in
  ((9 <=? n) && (n <=? 13) || (28 <=? n) && (n <=? 32) || (n =? 133) || (n =? 160))%nat.

Fixpoint lstrip (s : string) : string :=
  match s with
  | String c s' => if isspace c then lstrip s' else s
  | EmptyString => EmptyString
  end.

Fixpoint rstrip (s : string) : string :=
  match s with
  | String c s' =>
      match rstrip s' with
      | EmptyString => if isspace c then EmptyString else String c EmptyString
      | r => String c r
      end
  | EmptyString => EmptyString
  end.

Definition strip (s : string) : string := rstrip (lstrip s).

(** [s.replace(old, new)] for a non-empty [old]: the occurrences of [old]
    are found from left to right and do not overlap.  [skip] counts the
    characters of a match still to be dropped. *)
Fixpoint replace_from (old new : string) (skip : nat) (s : string) : string :=
  match s with
  | EmptyString => EmptyString
  | String c s' =>
      match skip with
      | S k => replace_from old new k s'
      | O =>
          if String.prefix old s
          then new ++ replace_from old new (String.length old - 1) s'
          else String c (replace_from old new 0 s')
      end
  end.

Definition replace (old new s : string) : string := replace_from old new 0 s.

(** [sep.join(parts)] on strings. *)
Definition join (sep : string) (parts : list string) : string :=
  String.concat sep parts.

Section Program.

Context {F : Type} `{PyLib F}.

Local Open Scope result_scope.

(** Truth value of a Python object ([if x:], [filter(None, ...)]). *)
Definition truthy (v : json F) : bool :=
  match v with
  | JNull => false
  | JBool b => b
  | JInt z => negb (z =? 0)
  | JFloat f => float_nonzero f
  | JStr s => negb (String.eqb s EmptyString)
  | JArr items => match items with [] => false | _ :: _ => true end
  | JObj fields => match fields with [] => false | _ :: _ => true end
  end.

Fixpoint assoc (k : string) (fields : list (string * json F)) : option (json F) :=
  match fields with
  | [] => None
  | (k', v) :: rest => if String.eqb k k' then Some v else assoc k rest
  end.

(** [obj.get(key, default)]; only a dict has the method. *)
Definition get_default (obj : json F) (key : string) (default : json F) : result (json F) :=
  match obj with
  | JObj fields => Ret (match assoc key fields with Some v => v | None => default end)
  | _ => Raise AttributeError
  end.

(** [obj.get(key)]. *)
Definition get (obj : json F) (key : string) : result (json F) :=
  get_default obj key JNull.

(** [data[0]]. *)
Definition item0 (data : json F) : result (json F) :=
  match data with
  | JArr (x :: _) => Ret x
  | JArr [] => Raise IndexError
  | JStr (String c _) => Ret (JStr (String c EmptyString))
  | JStr EmptyString => Raise IndexError
  | JObj _ => Raise KeyError
  | JNull | JBool _ | JInt _ | JFloat _ => Raise TypeError
  end.

(** [float(x)]. *)
Definition float (x : json F) : result F :=
  match x with
  | JFloat f => Ret f
  | JInt z => match float_of_int z with Some f => Ret f | None => Raise OverflowError end
  | JBool b => match float_of_int (if b then 1 else 0) with
               | Some f => Ret f
               | None => Raise OverflowError
               end
  | JStr s => match float_of_str s with Some f => Ret f | None => Raise ValueError end
  | JNull | JArr _ | JObj _ => Raise TypeError
  end.

(** [", ".join(parts)] on Python objects: every part must be a [str]. *)
Fixpoint strings_of (parts : list (json F)) : result (list string) :=
  match parts with
  | [] => Ret []
  | JStr s :: rest => l <- strings_of rest ;; Ret (s :: l)
  | _ :: _ => Raise TypeError
  end.

Definition py_join (sep : string) (parts : list (json F)) : result string :=
  l <- strings_of parts ;; Ret (join sep l).

(** Validation of a field declared [str | None] by the [AddressUpdate]
    constructor. *)
Definition str_or_none (v : json F) : result (option string) :=
  match v with
  | JNull => Ret None
  | JStr s => Ret (Some s)
  | _ => Raise ValidationError
  end.

(** [AddressUpdate()] with no field set. *)
Definition unset : AddressUpdate F :=
  mkAddressUpdate None None None None None None None None None None None.

(** ** app/processing.py: the two wrappers of the remote services *)

(** Line 99: [response.text.strip().replace(FENCE + "json", "")
    .replace(FENCE, "").strip()], where FENCE is three backquotes. *)
Definition tick : ascii := "`"%char.

Definition fence : string := String tick (String tick (String tick EmptyString)).

Definition clean_response (text : string) : string :=
  strip (replace fence EmptyString (replace (fence ++ "json") EmptyString (strip text))).

(** [parse_address_with_ai]: Python's [None] is [JNull].  The availability
    probe stands before the [try]; the generation call, the cleaning and
    [json.loads] stand inside it, under [except Exception]. *)
Definition parse_address_with_ai (w : world F) (address : string) : result (json F) :=
  match get_model w with
  | ProbeRaises e => Raise e
  | ProbeFalsy => Ret JNull
  | ProbeOk =>
      match generate_content w address with
      | GenRaises _ => Ret JNull
      | GenText text =>
          match json_loads (clean_response text) with
          | Some parsed_json => Ret parsed_json
          | None => Ret JNull
          end
      end
  end.

(** The dict [geocode_address] builds; the first two entries come out of
    [float(...)], the other two are whatever the match holds. *)
Record GeoResult : Type := mkGeoResult {
  g_latitude : F;
  g_longitude : F;
  g_suggested_address : json F;
  g_postal_code : json F
}.

(** [response.raise_for_status()]. *)
Definition raise_for_status (response : http_response F) : result unit :=
  if (400 <=? status_code response) && (status_code response <? 600)
  then Raise (RequestException HTTPError)
  else Ret tt.

(** [try: body except requests.exceptions.RequestException: return None]. *)
Definition except_RequestException {A : Type} (body : result (option A)) : result (option A) :=
  match body with
  | Raise (RequestException _) => Ret None
  | other => other
  end.

Definition geocode_address (w : world F) (address : option string) : result (option GeoResult) :=
  match address with
  | None => Ret None
  | Some q =>
      if String.eqb q EmptyString then Ret None
      else
        except_RequestException
          (response <- requests_get w q ;;
           _ <- raise_for_status response ;;
           data <- response_json response ;;
           if negb (truthy data) then Ret None
           else
             first <- item0 data ;;
             lat <- get first "lat" ;;
             lat_f <- float lat ;;
             lon <- get first "lon" ;;
             lon_f <- float lon ;;
             display_name <- get first "display_name" ;;
             details <- get_default first "address" (JObj []) ;;
             postcode <- get details "postcode" ;;
             Ret (Some (mkGeoResult lat_f lon_f display_name postcode)))
  end.

(** ** app/crud.py *)

Definition get_address (db : gmap uuid (Address F)) (address_id : uuid) : option (Address F) :=
  db !! address_id.

(** [models.Address(original_address=...)] with the column defaults; the
    fresh id is what [uuid.uuid4] returned. *)
Definition new_address (fresh : uuid) (original : string) : Address F :=
  mkAddress fresh original None None None None None None None None None PENDING.

Definition create_address (db : gmap uuid (Address F)) (fresh : uuid) (original : string)
  : result (gmap uuid (Address F) * Address F) :=
  match db !! fresh with
  | Some _ => Raise IntegrityError
  | None => Ret (<[fresh := new_address fresh original]> db, new_address fresh original)
  end.

(** One [setattr] of a nullable column. *)
Definition assign {A : Type} (given : option (option A)) (old : option A) : option A :=
  match given with
  | Some v => v
  | None => old
  end.

(** One [setattr] of a NOT NULL column; a null is refused at commit time. *)
Definition assign_required {A : Type} (given : option (option A)) (old : A) : result A :=
  match given with
  | Some (Some v) => Ret v
  | Some None => Raise IntegrityError
  | None => Ret old
  end.

(** The [setattr] loop of [update_address] over the fields that were set,
    with the NOT NULL check of the commit.  The other checks of the commit
    are not made here: see [storable_update]. *)
Definition setattrs (a : Address F) (u : AddressUpdate F) : result (Address F) :=
  original <- assign_required (u_original_address u) (original_address a) ;;
  st <- assign_required (u_status u) (status a) ;;
  Ret (mkAddress (id a) original
         (assign (u_normalized_address u) (normalized_address a))
         (assign (u_suggested_address u) (suggested_address a))
         (assign (u_street_info u) (street_info a))
         (assign (u_neighborhood u) (neighborhood a))
         (assign (u_apartment_info u) (apartment_info a))
         (assign (u_notes u) (notes a))
         (assign (u_latitude u) (latitude a))
         (assign (u_longitude u) (longitude a))
         (assign (u_postal_code u) (postal_code a))
         st).

Definition update_address (db : gmap uuid (Address F)) (address_id : uuid)
    (address_update : AddressUpdate F)
  : result (gmap uuid (Address F) * option (Address F)) :=
  match get_address db address_id with
  | None => Ret (db, None)
  | Some db_address =>
      updated <- setattrs db_address address_update ;;
      Ret (<[address_id := updated]> db, Some updated)
  end.

Definition delete_address (db : gmap uuid (Address F)) (address_id : uuid)
  : gmap uuid (Address F) * option (Address F) :=
  match get_address db address_id with
  | None => (db, None)
  | Some db_address => (delete address_id db, Some db_address)
  end.

(** ** The session of one pipeline run *)

(** What a run does that an observer can see, in order. *)
Inductive event : Type :=
  | EvQuery (address_id : uuid)
  | EvExtract (address : string)
  | EvCommit (address_id : uuid) (u : AddressUpdate F)
  | EvGeocode (address : option string)
  | EvClose.

(** The committed store, and the log: each event with the committed store
    at the moment it happened (for a commit, the store it produced). *)
Record session : Type := mkSession {
  db : gmap uuid (Address F);
  log : list (event * gmap uuid (Address F))
}.

Definition M (A : Type) : Type := session -> result A * session.

Definition mret {A : Type} (a : A) : M A := fun s => (Ret a, s).

Definition mbind {A B : Type} (m : M A) (k : A -> M B) : M B :=
  fun s =>
    match m s with
    | (Ret a, s') => k a s'
    | (Raise e, s') => (Raise e, s')
    end.

Definition lift {A : Type} (r : result A) : M A := fun s => (r, s).

Definition emit (e : event) : M unit :=
  fun s => (Ret tt, mkSession (db s) (log s ++ [(e, db s)])).

(** [try: body finally: cleanup]. *)
Definition finally {A : Type} (body : M A) (cleanup : M unit) : M A :=
  fun s =>
    match body s with
    | (r, s') => (r, snd (cleanup s'))
    end.

Declare Scope pipeline_scope.
Delimit Scope pipeline_scope with pipeline.
Notation "x <~ m ;; k" := (mbind m (fun x => k))
  (at level 100, m at next level, right associativity) : pipeline_scope.
Notation "m ;;; k" := (mbind m (fun _ => k))
  (at level 100, right associativity) : pipeline_scope.

Local Open Scope pipeline_scope.

(** [crud.get_address(db, ...)] in a session. *)
Definition query_address (address_id : uuid) : M (option (Address F)) :=
  emit (EvQuery address_id) ;;;
  fun s => (Ret (get_address (db s) address_id), s).

(** [crud.update_address(db, ...)] in a session: the commit is logged when
    there is one. *)
Definition commit_update (address_id : uuid) (u : AddressUpdate F) : M (option (Address F)) :=
  fun s =>
    match update_address (db s) address_id u with
    | Ret (db', Some row) =>
        (Ret (Some row), mkSession db' (log s ++ [(EvCommit address_id u, db')]))
    | Ret (_, None) => (Ret None, s)
    | Raise e => (Raise e, s)
    end.

(** [db.refresh(db_address)]: the row as the store has it now. *)
Definition refresh (address_id : uuid) : M (Address F) :=
  fun s =>
    match db s !! address_id with
    | Some row => (Ret row, s)
    | None => (Raise InvalidRequestError, s)
    end.

(** ** app/processing.py: the orchestrator *)

(** Lines 150 to 156. *)
Definition norm_parts (street nb : json F) : list (json F) :=
  [street; nb; JStr "Medellin"; JStr "Colombia"].

Definition normalized_str (street nb : json F) : result string :=
  py_join ", " (List.filter truthy (norm_parts street nb)).

(** Lines 158 to 165: the extraction-success update. *)
Definition update_data (street nb apartment note : json F) (normalized : string)
  : result (AddressUpdate F) :=
  (street' <- str_or_none street ;;
   nb' <- str_or_none nb ;;
   apartment' <- str_or_none apartment ;;
   note' <- str_or_none note ;;
   Ret (mkAddressUpdate None (Some (Some normalized)) None
          (Some street') (Some nb') (Some apartment') (Some note')
          None None None (Some (Some NORMALIZED))))%result.

(** Lines 178 to 184: the geocoding-success update. *)
Definition update_geo (g : GeoResult) : result (AddressUpdate F) :=
  (suggested <- str_or_none (g_suggested_address g) ;;
   postal <- str_or_none (g_postal_code g) ;;
   Ret (mkAddressUpdate None None (Some suggested) None None None None
          (Some (Some (g_latitude g))) (Some (Some (g_longitude g)))
          (Some postal) (Some (Some VERIFIED))))%result.

Definition run_processing_pipeline (w : world F) (address_id : uuid) : M unit :=
  finally
    (found <~ query_address address_id ;;
     match found with
     | None => mret tt
     | Some db_address =>
         emit (EvExtract (original_address db_address)) ;;;
         parsed_data <~ lift (parse_address_with_ai w (original_address db_address)) ;;
         if truthy parsed_data then
           street <~ lift (get parsed_data "street_info") ;;
           nb <~ lift (get parsed_data "neighborhood") ;;
           normalized <~ lift (normalized_str street nb) ;;
           apartment <~ lift (get parsed_data "apartment_info") ;;
           note <~ lift (get parsed_data "notes") ;;
           upd <~ lift (update_data street nb apartment note normalized) ;;
           commit_update address_id upd ;;;
           refreshed <~ refresh address_id ;;
           emit (EvGeocode (normalized_address refreshed)) ;;;
           geocoded_data <~ lift (geocode_address w (normalized_address refreshed)) ;;
           match geocoded_data with
           | Some g =>
               upd_geo <~ lift (update_geo g) ;;
               commit_update address_id upd_geo ;;;
               mret tt
           | None => mret tt
           end
         else mret tt
     end)
    (emit EvClose).

(** A session that starts on a committed store. *)
Definition open_session (store : gmap uuid (Address F)) : session := mkSession store [].

(** One run from a committed store: how it ended, the store it left and
    its log. *)
Definition run (w : world F) (address_id : uuid) (store : gmap uuid (Address F))
  : result unit * session :=
  run_processing_pipeline w address_id (open_session store).

Definition store_after (w : world F) (address_id : uuid) (store : gmap uuid (Address F))
  : gmap uuid (Address F) :=
  db (snd (run w address_id store)).

(** Runs one after the other, each with the services as it finds them. *)
Fixpoint store_after_runs (runs : list (world F * uuid)) (store : gmap uuid (Address F))
  : gmap uuid (Address F) :=
  match runs with
  | [] => store
  | (w, address_id) :: rest => store_after_runs rest (store_after w address_id store)
  end.

End Program.

Arguments GeoResult F : clear implicits.
Arguments mkGeoResult {F}.
Arguments g_latitude {F}.
Arguments g_longitude {F}.
Arguments g_suggested_address {F}.
Arguments g_postal_code {F}.
Arguments event F : clear implicits.
Arguments session F : clear implicits.
Arguments M F A : clear implicits.

(** ** A reference instance of the library functions

    Used to run the program on concrete inputs.  Floats are replaced by
    exact decimal fractions; the decoder reads the JSON grammar without
    backslash-u escapes and without exponents. *)

Record decimal : Type := mkDecimal {
  mantissa : Z;
  places : nat
}.

Definition dquote : ascii := "034"%char.
Definition backslash : ascii := "092"%char.

Definition is_digit (c : ascii) : bool :=
  let n := nat_of_ascii c in ((48 <=? n) && (n <=? 57))%nat.

Definition digit_value (c : ascii) : Z := Z.of_nat (nat_of_ascii c) - 48.

(** The longest prefix of digits, and what follows it. *)
Fixpoint span_digits (s : string) : string * string :=
  match s with
  | String c s' =>
      if is_digit c then
        match span_digits s' with
        | (ds, rest) => (String c ds, rest)
        end
      else (EmptyString, s)
  | EmptyString => (EmptyString, EmptyString)
  end.

Fixpoint digits_value (acc : Z) (ds : string) : Z :=
  match ds with
  | String c ds' => digits_value (10 * acc + digit_value c) ds'
  | EmptyString => acc
  end.

(** The reading of [float(s)] on a sign, digits and an optional fraction. *)
Definition decimal_of_str (s : string) : option decimal :=
  let '(neg, body) :=
    match s with
    | String "-" s' => (true, s')
    | String "+" s' => (false, s')
    | _ => (false, s)
    end in
  match span_digits body with
  | (EmptyString, _) => None
  | (whole, EmptyString) =>
      Some (mkDecimal ((if neg then -1 else 1) * digits_value 0 whole) 0)
  | (whole, String "." frac_rest) =>
      match span_digits frac_rest with
      | (String c frac, EmptyString) =>
          Some (mkDecimal ((if neg then -1 else 1) * digits_value 0 (whole ++ String c frac))
                  (String.length (String c frac)))
      | _ => None
      end
  | _ => None
  end.

Definition json_space (c : ascii) : bool :=
  let n := nat_of_ascii c in ((n =? 32) || (n =? 9) || (n =? 10) || (n =? 13))%nat.

Fixpoint skip_space (s : string) : string :=
  match s with
  | String c s' => if json_space c then skip_space s' else s
  | EmptyString => EmptyString
  end.

(** The body of a string literal, after its opening quote. *)
Fixpoint scan_string (s : string) : option (string * string) :=
  match s with
  | EmptyString => None
  | String c s' =>
      if Ascii.eqb c dquote then Some (EmptyString, s')
      else if Ascii.eqb c backslash then
        match s' with
        | String e s'' =>
            let unescaped :=
              if Ascii.eqb e dquote then Some dquote
              else if Ascii.eqb e backslash then Some backslash
              else if Ascii.eqb e "/" then Some "/"%char
              else if Ascii.eqb e "b" then Some "008"%char
              else if Ascii.eqb e "f" then Some "012"%char
              else if Ascii.eqb e "n" then Some "010"%char
              else if Ascii.eqb e "r" then Some "013"%char
              else if Ascii.eqb e "t" then Some "009"%char
              else None in
            match unescaped, scan_string s'' with
            | Some u, Some (body, rest) => Some (String u body, rest)
            | _, _ => None
            end
        | EmptyString => None
        end
      else if (nat_of_ascii c <? 32)%nat then None
      else
        match scan_string s' with
        | Some (body, rest) => Some (String c body, rest)
        | None => None
        end
  end.

(** A number literal: an integer, or a decimal fraction read by [fos]. *)
Definition scan_number {F : Type} (fos : string -> option F) (s : string)
  : option (json F * string) :=
  let '(sign, body) :=
    match s with
    | String "-" s' => ("-", s')
    | _ => (EmptyString, s)
    end in
  let '(whole, rest) :=
    match body with
    | String "0" s' => ("0", s')
    | _ => span_digits body
    end in
  match whole with
  | EmptyString => None
  | _ =>
      match rest with
      | String "." after =>
          match span_digits after with
          | (EmptyString, _) =>
              Some (JInt ((if String.eqb sign "-" then -1 else 1) * digits_value 0 whole), rest)
          | (frac, rest') =>
              match fos (sign ++ whole ++ "." ++ frac) with
              | Some f => Some (JFloat f, rest')
              | None => None
              end
          end
      | _ => Some (JInt ((if String.eqb sign "-" then -1 else 1) * digits_value 0 whole), rest)
      end
  end.

(** A later binding of a key replaces the earlier one, as in a dict. *)
Fixpoint dict_set {F : Type} (k : string) (v : json F) (fields : list (string * json F))
  : list (string * json F) :=
  match fields with
  | [] => [(k, v)]
  | (k', v') :: rest =>
      if String.eqb k k' then (k, v) :: rest else (k', v') :: dict_set k v rest
  end.

Section Decoder.

Context {F : Type} (fos : string -> option F).

(** [decode_value] reads one value; [decode_items] and [decode_members]
    read what follows the opening bracket of an array and of an object. *)
Fixpoint decode_value (fuel : nat) (s : string) : option (json F * string) :=
  match fuel with
  | O => None
  | S fuel' =>
      match skip_space s with
      | EmptyString => None
      | String c rest as s0 =>
          if Ascii.eqb c dquote then
            match scan_string rest with
            | Some (body, rest') => Some (JStr body, rest')
            | None => None
            end
          else if Ascii.eqb c "[" then
            match skip_space rest with
            | String "]" rest' => Some (JArr [], rest')
            | _ => decode_items fuel' [] rest
            end
          else if Ascii.eqb c "{" then
            match skip_space rest with
            | String "}" rest' => Some (JObj [], rest')
            | _ => decode_members fuel' [] rest
            end
          else if String.prefix "null" s0 then Some (JNull, String.substring 4 (String.length s0 - 4) s0)
          else if String.prefix "true" s0 then Some (JBool true, String.substring 4 (String.length s0 - 4) s0)
          else if String.prefix "false" s0 then Some (JBool false, String.substring 5 (String.length s0 - 5) s0)
          else scan_number fos s0
      end
  end
with decode_items (fuel : nat) (acc : list (json F)) (s : string) : option (json F * string) :=
  match fuel with
  | O => None
  | S fuel' =>
      match decode_value fuel' s with
      | Some (v, rest) =>
          match skip_space rest with
          | String "," rest' => decode_items fuel' (acc ++ [v]) rest'
          | String "]" rest' => Some (JArr (acc ++ [v]), rest')
          | _ => None
          end
      | None => None
      end
  end
with decode_members (fuel : nat) (acc : list (string * json F)) (s : string)
  : option (json F * string) :=
  match fuel with
  | O => None
  | S fuel' =>
      match skip_space s with
      | String c rest =>
          if Ascii.eqb c dquote then
            match scan_string rest with
            | Some (key, rest') =>
                match skip_space rest' with
                | String ":" rest'' =>
                    match decode_value fuel' rest'' with
                    | Some (v, rest3) =>
                        match skip_space rest3 with
                        | String "," rest4 => decode_members fuel' (dict_set key v acc) rest4
                        | String "}" rest4 => Some (JObj (dict_set key v acc), rest4)
                        | _ => None
                        end
                    | None => None
                    end
                | _ => None
                end
            | None => None
            end
          else None
      | EmptyString => None
      end
  end.

(** [json.loads(s)]: one value, then nothing but white space. *)
Definition decode (s : string) : option (json F) :=
  match decode_value (2 * String.length s + 2) s with
  | Some (v, rest) =>
      match skip_space rest with
      | EmptyString => Some v
      | String _ _ => None
      end
  | None => None
  end.

End Decoder.

#[export] Instance reference_lib : PyLib decimal := {
  float_of_int z := Some (mkDecimal z 0);
  float_of_str := decimal_of_str;
  float_nonzero d := negb (mantissa d =? 0);
  json_loads := decode decimal_of_str
}.

(** ** Vocabulary of the properties *)

Definition rank (s : AddressStatus) : nat :=
  match s with
  | PENDING => 0
  | NORMALIZED => 1
  | VERIFIED => 2
  end.

(** The order of the life cycle: [s] is [t] or comes before it. *)
Definition forward (s t : AddressStatus) : Prop := (rank s <= rank t)%nat.

(** Three backquotes in a row somewhere in [s]. *)
Fixpoint has_fence (s : string) : bool :=
  match s with
  | EmptyString => false
  | String _ s' => String.prefix fence s || has_fence s'
  end.

(** The join the specification describes: the parts that are not null. *)
Definition spec_normalized_address (street nb : option string) : string :=
  join ", " (omap (fun part : option string => part) [street; nb; Some "Medellin"; Some "Colombia"]).

(** The parts the code keeps: not null and not the empty string. *)
Definition kept (part : option string) : option string :=
  match part with
  | Some s => if String.eqb s EmptyString then None else Some s
  | None => None
  end.

Definition kept_normalized_address (street nb : option string) : string :=
  join ", " (omap kept [street; nb; Some "Medellin"; Some "Colombia"]).

Section Specification.

Context {F : Type} `{PyLib F}.

(** Lines 150 to 165 of [run_processing_pipeline] taken together: from the
    extractor's answer to the update that is committed. *)
Definition extraction_update (parsed_data : json F) : result (AddressUpdate F) :=
  (street <- get parsed_data "street_info" ;;
   nb <- get parsed_data "neighborhood" ;;
   normalized <- normalized_str street nb ;;
   apartment <- get parsed_data "apartment_info" ;;
   note <- get parsed_data "notes" ;;
   update_data street nb apartment note normalized)%result.

(** The extractor gave the orchestrator nothing to go on: it returned a
    false value ([None] in particular) or raised. *)
Definition extraction_failed (w : world F) (a : Address F) : bool :=
  match parse_address_with_ai w (original_address a) with
  | Ret v => negb (truthy v)
  | Raise _ => true
  end.


(** A string or null: what the four extracted fields are declared to be. *)
Definition str_or_null (v : json F) : bool :=
  match v with
  | JNull | JStr _ => true
  | _ => false
  end.

(** The value [obj.get(key)] sees in the fields of an object. *)
Definition field (fields : list (string * json F)) (key : string) : json F :=
  match assoc key fields with
  | Some v => v
  | None => JNull
  end.


(** The four extracted fields of an object are each a string or null (an
    absent one reads as null). *)
Definition typed_fields (fields : list (string * json F)) : bool :=
  forallb (fun key => str_or_null (field fields key))
    ["street_info"; "neighborhood"; "apartment_info"; "notes"].

(** The field of an extracted object as a column value. *)
Definition column (v : json F) : option string :=
  match v with
  | JStr s => Some s
  | _ => None
  end.

(** The status of row [address_id] in each snapshot of a log. *)
Definition status_trail (address_id : uuid) (l : list (event F * gmap uuid (Address F)))
  : list AddressStatus :=
  omap (fun entry => status <$> (snd entry !! address_id)) l.

Definition is_commit (e : event F) : bool :=
  match e with
  | EvCommit _ _ => true
  | _ => false
  end.

Definition is_geocode (e : event F) : bool :=
  match e with
  | EvGeocode _ => true
  | _ => false
  end.

Definition is_extract (e : event F) : bool :=
  match e with
  | EvExtract _ => true
  | _ => false
  end.

(** A row has both coordinates or none. *)
Definition coordinates_paired (a : Address F) : Prop :=
  is_Some (latitude a) <-> is_Some (longitude a).

(** A verified row has both coordinates. *)
Definition verified_located (a : Address F) : Prop :=
  status a = VERIFIED -> is_Some (latitude a) /\ is_Some (longitude a).

Definition located (a : Address F) : Prop :=
  verified_located a /\ coordinates_paired a.

(** The stores the record store and the pipeline can produce: rows are
    created, deleted, and enriched by runs; the store a run has committed
    at any point of its log counts too. *)
Inductive reachable : gmap uuid (Address F) -> Prop :=
  | reach_empty : reachable ∅
  | reach_create store fresh original store' row :
      reachable store ->
      create_address store fresh original = Ret (store', row) ->
      reachable store'
  | reach_delete store address_id :
      reachable store ->
      reachable (fst (delete_address store address_id))
  | reach_run store w address_id e snapshot :
      reachable store ->
      In (e, snapshot) (log (snd (run w address_id store))) ->
      reachable snapshot.

(** The shapes a run can take, with the reason for each. *)
Inductive run_shape (w : world F) (address_id : uuid) (store : gmap uuid (Address F))
  : result unit * session F -> Prop :=
  | shape_not_found :
      store !! address_id = None ->
      run_shape w address_id store
        (Ret tt, mkSession store [(EvQuery address_id, store); (EvClose, store)])
  | shape_extractor_raises a e :
      store !! address_id = Some a ->
      parse_address_with_ai w (original_address a) = Raise e ->
      run_shape w address_id store
        (Raise e,
         mkSession store
           [(EvQuery address_id, store); (EvExtract (original_address a), store);
            (EvClose, store)])
  | shape_extraction_failed a v :
      store !! address_id = Some a ->
      parse_address_with_ai w (original_address a) = Ret v ->
      truthy v = false ->
      run_shape w address_id store
        (Ret tt,
         mkSession store
           [(EvQuery address_id, store); (EvExtract (original_address a), store);
            (EvClose, store)])
  | shape_update_refused a v e :
      store !! address_id = Some a ->
      parse_address_with_ai w (original_address a) = Ret v ->
      truthy v = true ->
      extraction_update v = Raise e ->
      run_shape w address_id store
        (Raise e,
         mkSession store
           [(EvQuery address_id, store); (EvExtract (original_address a), store);
            (EvClose, store)])
  | shape_geocoder_raises a v upd a1 e :
      store !! address_id = Some a ->
      parse_address_with_ai w (original_address a) = Ret v ->
      truthy v = true ->
      extraction_update v = Ret upd ->
      setattrs a upd = Ret a1 ->
      geocode_address w (normalized_address a1) = Raise e ->
      run_shape w address_id store
        (Raise e,
         mkSession (<[address_id := a1]> store)
           [(EvQuery address_id, store); (EvExtract (original_address a), store);
            (EvCommit address_id upd, <[address_id := a1]> store);
            (EvGeocode (normalized_address a1), <[address_id := a1]> store);
            (EvClose, <[address_id := a1]> store)])
  | shape_geocoding_failed a v upd a1 :
      store !! address_id = Some a ->
      parse_address_with_ai w (original_address a) = Ret v ->
      truthy v = true ->
      extraction_update v = Ret upd ->
      setattrs a upd = Ret a1 ->
      geocode_address w (normalized_address a1) = Ret None ->
      run_shape w address_id store
        (Ret tt,
         mkSession (<[address_id := a1]> store)
           [(EvQuery address_id, store); (EvExtract (original_address a), store);
            (EvCommit address_id upd, <[address_id := a1]> store);
            (EvGeocode (normalized_address a1), <[address_id := a1]> store);
            (EvClose, <[address_id := a1]> store)])
  | shape_geo_update_refused a v upd a1 g e :
      store !! address_id = Some a ->
      parse_address_with_ai w (original_address a) = Ret v ->
      truthy v = true ->
      extraction_update v = Ret upd ->
      setattrs a upd = Ret a1 ->
      geocode_address w (normalized_address a1) = Ret (Some g) ->
      update_geo g = Raise e ->
      run_shape w address_id store
        (Raise e,
         mkSession (<[address_id := a1]> store)
           [(EvQuery address_id, store); (EvExtract (original_address a), store);
            (EvCommit address_id upd, <[address_id := a1]> store);
            (EvGeocode (normalized_address a1), <[address_id := a1]> store);
            (EvClose, <[address_id := a1]> store)])
  | shape_verified a v upd a1 g upd_geo a2 :
      store !! address_id = Some a ->
      parse_address_with_ai w (original_address a) = Ret v ->
      truthy v = true ->
      extraction_update v = Ret upd ->
      setattrs a upd = Ret a1 ->
      geocode_address w (normalized_address a1) = Ret (Some g) ->
      update_geo g = Ret upd_geo ->
      setattrs a1 upd_geo = Ret a2 ->
      run_shape w address_id store
        (Ret tt,
         mkSession (<[address_id := a2]> (<[address_id := a1]> store))
           [(EvQuery address_id, store); (EvExtract (original_address a), store);
            (EvCommit address_id upd, <[address_id := a1]> store);
            (EvGeocode (normalized_address a1), <[address_id := a1]> store);
            (EvCommit address_id upd_geo, <[address_id := a2]> (<[address_id := a1]> store));
            (EvClose, <[address_id := a2]> (<[address_id := a1]> store))]).

End Specification.

(** ** Concrete rows, answers and services *)

Definition quoted (s : string) : string := String dquote (s ++ String dquote EmptyString).

Definition newline : string := String "010"%char EmptyString.

(** An answer wrapped in a fenced block, as the extraction service often
    sends it. *)
Definition fenced (body : string) : string :=
  fence ++ "json" ++ newline ++ body ++ newline ++ fence ++ newline.

Definition four_fields (street : string) : string :=
  "{" ++ quoted "street_info" ++ ": " ++ quoted street ++ ", "
      ++ quoted "neighborhood" ++ ": null, "
      ++ quoted "apartment_info" ++ ": null, "
      ++ quoted "notes" ++ ": null}".

Definition example_id : uuid := 7%N.

Definition example_raw : string := "av. carrera 44B calle 13-16".

(** One freshly created row. *)
Definition example_store : gmap uuid (Address decimal) :=
  {[ example_id := new_address example_id example_raw ]}.

Definition example_match : json decimal :=
  JObj [("lat", JStr "6.2443"); ("lon", JStr "-75.5736");
        ("display_name", JStr "Carrera 44B, El Poblado, Medellin, Colombia");
        ("address", JObj [("postcode", JStr "050021")])].

Definition answering (data : json decimal) : string -> result (http_response decimal) :=
  fun _ => Ret (mkResponse 200 (Ret data)).

(** Both services answer well. *)
Definition world_ok : world decimal :=
  mkWorld ProbeOk (fun _ => GenText (fenced (four_fields "Carrera 44B # 13-16")))
    (answering (JArr [example_match])).

(** The extraction answers well, the geocoder times out. *)
Definition world_timeout : world decimal :=
  mkWorld ProbeOk (fun _ => GenText (fenced (four_fields "Carrera 44B # 13-16")))
    (fun _ => Raise (RequestException Timeout)).

(** The extraction answers well, the geocoder finds nothing. *)
Definition world_no_match : world decimal :=
  mkWorld ProbeOk (fun _ => GenText (fenced (four_fields "Carrera 44B # 13-16")))
    (answering (JArr [])).

(** The extraction service sends prose instead of JSON. *)
Definition world_prose : world decimal :=
  mkWorld ProbeOk (fun _ => GenText "Lo siento, no puedo ayudar con eso.")
    (answering (JArr [example_match])).

(** The extraction service names the street with the empty string. *)
Definition world_empty_street : world decimal :=
  mkWorld ProbeOk (fun _ => GenText (fenced (four_fields EmptyString)))
    (answering (JArr [example_match])).




(** The geocoder's match has coordinates and no display name. *)
Definition world_nameless_match : world decimal :=
  mkWorld ProbeOk (fun _ => GenText (fenced (four_fields "Carrera 44B # 13-16")))
    (answering (JArr [JObj [("lat", JStr "6.2443"); ("lon", JStr "-75.5736")]])).

(** The geocoder's match has a display name and no coordinates. *)
Definition world_unlocated_match : world decimal :=
  mkWorld ProbeOk (fun _ => GenText (fenced (four_fields "Carrera 44B # 13-16")))
    (answering (JArr [JObj [("display_name", JStr "Medellin, Colombia")]])).

(** The row of [example_store], the object the extraction service sends
    in [world_ok], the update the orchestrator builds from it and the row
    that update leaves. *)
Definition example_row : Address decimal := new_address example_id example_raw.

Definition example_fields : list (string * json decimal) :=
  [("street_info", JStr "Carrera 44B # 13-16"); ("neighborhood", JNull);
   ("apartment_info", JNull); ("notes", JNull)].

Definition example_query : string := "Carrera 44B # 13-16, Medellin, Colombia".

Definition example_update : AddressUpdate decimal :=
  mkAddressUpdate None (Some (Some example_query)) None
    (Some (Some "Carrera 44B # 13-16")) (Some None) (Some None) (Some None)
    None None None (Some (Some NORMALIZED)).

Definition normalized_row : Address decimal :=
  mkAddress example_id example_raw (Some example_query) None
    (Some "Carrera 44B # 13-16") None None None None None None NORMALIZED.

Definition normalized_store : gmap uuid (Address decimal) :=
  <[example_id := normalized_row]> example_store.


(** What the geocoder returns in [world_ok]. *)
Definition example_geo : GeoResult decimal :=
  mkGeoResult (mkDecimal 62443 4) (mkDecimal (-755736) 4)
    (JStr "Carrera 44B, El Poblado, Medellin, Colombia") (JStr "050021").

(** [example_store] with a second row. *)
Definition other_id : uuid := 9%N.

Definition two_row_store : gmap uuid (Address decimal) :=
  <[other_id := new_address other_id "Cra72a#113-21 2do piso"]> example_store.

(** The store after a first, fully successful run on [example_store]. *)
Definition verified_store : gmap uuid (Address decimal) :=
  store_after world_ok example_id example_store.

(** ** app/crud.py: the queries over the whole table *)

Section Table.

Context {F : Type}.

(** [scan db] is the table as a [SELECT] without [ORDER BY] returns it:
    the rows of [db], in an order the database chooses. *)
Variable scan : gmap uuid (Address F) -> list (Address F).

(** [.filter(original_address == ...).first()]. *)
Definition get_address_by_original_address (db : gmap uuid (Address F)) (original : string)
  : option (Address F) :=
  List.find (fun row => String.eqb (original_address row) original) (scan db).

(** [.offset(skip).limit(limit).all()]; PostgreSQL refuses a negative
    OFFSET or LIMIT. *)
Definition get_addresses (db : gmap uuid (Address F)) (skip limit : Z)
  : result (list (Address F)) :=
  if (skip <? 0) || (limit <? 0) then Raise (OtherException "DataError")
  else Ret (take (Z.to_nat limit) (drop (Z.to_nat skip) (scan db))).

Definition get_all_addresses (db : gmap uuid (Address F)) : list (Address F) :=
  scan db.

End Table.

(** ** app/main.py *)

(** What the body of the [try] of the upload endpoint can raise: an
    [HTTPException] of its own, or any other exception. *)
Inductive cause : Type :=
  | CauseHTTP (status : Z) (text : string)
  | CauseException (e : exn).

(** The detail of an [HTTPException]: a literal, or the f-string
    [Error al procesar el archivo: {e}] of the upload endpoint. *)
Inductive detail : Type :=
  | Detail (text : string)
  | ProcessingError (e : cause).

(** How an endpoint ends: with its response, with an [HTTPException], or
    with an exception nothing handles. *)
Inductive outcome (A : Type) : Type :=
  | Responded (body : A)
  | HTTPException (status : Z) (d : detail)
  | Unhandled (e : exn).

Arguments Responded {A} body.
Arguments HTTPException {A} status d.
Arguments Unhandled {A} e.

(** An endpoint that writes: its outcome, the committed store it leaves,
    and the address ids it gave to [background_tasks.add_task], in order. *)
Record handled (F A : Type) : Type := mkHandled {
  reply : outcome A;
  database : gmap uuid (Address F);
  background_tasks : list uuid
}.

Arguments mkHandled {F A}.
Arguments reply {F A}.
Arguments database {F A}.
Arguments background_tasks {F A}.

(** A cell of a data frame that is not missing: a [str], or a value that
    is no [str], on which the lookup by text or [AddressCreate] raises. *)
Inductive value : Type :=
  | Text (s : string)
  | NotText (e : exn).

(** What pandas read: the column labels, the number of rows, and the cells
    of each column, [None] for a missing one. *)
Record dataframe : Type := mkDataFrame {
  columns : list string;
  n_rows : nat;
  series : string -> list (option value)
}.

(** The uploaded file: its name, and what [pd.read_excel] and
    [pd.read_csv] make of its content. *)
Record upload_file : Type := mkUploadFile {
  filename : option string;
  read_excel : result dataframe;
  read_csv : result dataframe
}.

(** The dict the upload endpoint returns. *)
Record upload_summary : Type := mkSummary {
  message : string;
  rows_found : nat;
  new_addresses_created : nat;
  addresses_skipped : nat
}.

(** [s.endswith(suffix)]. *)
Definition endswith (s suffix : string) : bool :=
  (String.length suffix <=? String.length s)%nat
  && String.eqb
       (String.substring (String.length s - String.length suffix) (String.length suffix) s)
       suffix.

(** [series.dropna()]. *)
Definition dropna (cells : list (option value)) : list value :=
  omap (fun cell : option value => cell) cells.

(** The labels the upload endpoint looks for, in its order; the third has
    an o with an acute accent. *)
Definition address_columns : list string :=
  ["direccion"; "address"; "Direcci" ++ String "243"%char "n"; "Address"].

Section Endpoints.

Context {F : Type}.

Variable scan : gmap uuid (Address F) -> list (Address F).

(** POST /addresses/; [fresh] is the id [uuid.uuid4] gives the new row. *)
Definition create_address_endpoint (fresh : uuid) (db : gmap uuid (Address F))
    (original : string) : handled F (Address F) :=
  match get_address_by_original_address scan db original with
  | Some _ => mkHandled (HTTPException 400 (Detail "Address already registered")) db []
  | None =>
      match create_address db fresh original with
      | Ret (db', new) => mkHandled (Responded new) db' [id new]
      | Raise e => mkHandled (Unhandled e) db []
      end
  end.

(** GET /addresses/. *)
Definition read_addresses_endpoint (db : gmap uuid (Address F)) (skip limit : Z)
  : outcome (list (Address F)) :=
  match get_addresses scan db skip limit with
  | Ret addresses => Responded addresses
  | Raise e => Unhandled e
  end.

(** GET /addresses/{address_id}. *)
Definition read_address_endpoint (db : gmap uuid (Address F)) (address_id : uuid)
  : outcome (Address F) :=
  match get_address db address_id with
  | None => HTTPException 404 (Detail "Address not found")
  | Some db_address => Responded db_address
  end.

(** PUT /addresses/{address_id}. *)
Definition update_address_endpoint (db : gmap uuid (Address F)) (address_id : uuid)
    (address_update : AddressUpdate F) : handled F (Address F) :=
  match update_address db address_id address_update with
  | Ret (db', Some db_address) => mkHandled (Responded db_address) db' []
  | Ret (_, None) => mkHandled (HTTPException 404 (Detail "Address not found")) db []
  | Raise e => mkHandled (Unhandled e) db []
  end.

(** DELETE /addresses/{address_id}. *)
Definition delete_address_endpoint (db : gmap uuid (Address F)) (address_id : uuid)
  : handled F (Address F) :=
  match delete_address db address_id with
  | (db', Some db_address) => mkHandled (Responded db_address) db' []
  | (_, None) => mkHandled (HTTPException 404 (Detail "Address not found")) db []
  end.

(** The loop of the upload endpoint over the cells that are not missing.
    [uuid4 n] is the id of the row created after [n] others in this
    request.  Every creation is committed at once, so when a cell raises,
    the rows created before it stay. *)
Fixpoint import_rows (uuid4 : nat -> uuid) (cells : list value)
    (db : gmap uuid (Address F)) (created_count skipped_count : nat) (tasks : list uuid)
  : result (nat * nat) * gmap uuid (Address F) * list uuid :=
  match cells with
  | [] => (Ret (created_count, skipped_count), db, tasks)
  | NotText e :: _ => (Raise e, db, tasks)
  | Text address_str :: rest =>
      match get_address_by_original_address scan db address_str with
      | Some _ => import_rows uuid4 rest db created_count (S skipped_count) tasks
      | None =>
          match create_address db (uuid4 created_count) address_str with
          | Ret (db', new) =>
              import_rows uuid4 rest db' (S created_count) skipped_count (tasks ++ [id new])
          | Raise e => (Raise e, db, tasks)
          end
      end
  end.

(** POST /upload.  The check of the file name stands before the [try];
    the reading, the search of the column and the loop stand inside it,
    under [except Exception], which turns whatever is raised, the
    endpoint's own [HTTPException] included, into a 500. *)
Definition upload_file_endpoint (uuid4 : nat -> uuid) (db : gmap uuid (Address F))
    (file : upload_file) : handled F upload_summary :=
  match filename file with
  | None => mkHandled (Unhandled AttributeError) db []
  | Some name =>
      if negb (endswith name ".xlsx" || endswith name ".csv") then
        mkHandled
          (HTTPException 400 (Detail "Formato de archivo no soportado. Use .xlsx o .csv"))
          db []
      else
        match (if endswith name ".xlsx" then read_excel file else read_csv file) with
        | Raise e => mkHandled (HTTPException 500 (ProcessingError (CauseException e))) db []
        | Ret df =>
            match List.find (fun col => existsb (String.eqb col) (columns df))
                    address_columns with
            | None =>
                mkHandled
                  (HTTPException 500
                     (ProcessingError
                        (CauseHTTP 400
                           "El archivo debe contener una columna llamada 'direccion' o 'address'.")))
                  db []
            | Some address_col =>
                match import_rows uuid4 (dropna (series df address_col)) db 0 0 [] with
                | (Ret (created_count, skipped_count), db', tasks) =>
                    mkHandled
                      (Responded
                         (mkSummary
                            ("Archivo '" ++ name ++ "' aceptado. Se iniciaron "
                               ++ pretty created_count
                               ++ " nuevas tareas de procesamiento.")
                            (n_rows df) created_count skipped_count))
                      db' tasks
                | (Raise e, db', tasks) =>
                    mkHandled (HTTPException 500 (ProcessingError (CauseException e)))
                      db' tasks
                end
            end
        end
  end.

End Endpoints.

(** ** Vocabulary of the properties of the record store and the endpoints *)

Section Stores.

Context {F : Type}.

(** A scan returns each row of the table once. *)
Definition table_order (scan : gmap uuid (Address F) -> list (Address F)) : Prop :=
  forall db, scan db ≡ₚ (snd <$> map_to_list db).

(** The scan in the order of the keys of the map. *)
Definition key_order (db : gmap uuid (Address F)) : list (Address F) :=
  snd <$> map_to_list db.

(** Some row of the store holds this raw text. *)
Definition registered (db : gmap uuid (Address F)) (original : string) : Prop :=
  exists i row, db !! i = Some row /\ original_address row = original.

(** No two rows hold the same raw text. *)
Definition unique_originals (db : gmap uuid (Address F)) : Prop :=
  forall i j a b,
    db !! i = Some a -> db !! j = Some b ->
    original_address a = original_address b -> i = j.

(** Each row is stored under its own id. *)
Definition keyed (db : gmap uuid (Address F)) : Prop :=
  forall i a, db !! i = Some a -> id a = i.

(** The reading the upload endpoint chooses by the name of the file. *)
Definition read_by_name (file : upload_file) (name : string) : result dataframe :=
  if endswith name ".xlsx" then read_excel file else read_csv file.

(** The texts of the cells that are strings. *)
Definition texts (cells : list value) : list string :=
  omap (fun v => match v with Text s => Some s | NotText _ => None end) cells.

(** Every cell is a string. *)
Definition all_text (cells : list value) : bool :=
  forallb (fun v => match v with Text _ => true | NotText _ => false end) cells.

End Stores.

Section Served.

Context {F : Type} `{PyLib F}.

Variable scan : gmap uuid (Address F) -> list (Address F).

(** The stores the application reaches through its creating and deleting
    endpoints and the pipeline runs; the PUT endpoint is left out. *)
Inductive served : gmap uuid (Address F) -> Prop :=
  | served_empty : served ∅
  | served_create db fresh original :
      served db ->
      served (database (create_address_endpoint scan fresh db original))
  | served_upload db uuid4 file :
      served db ->
      served (database (upload_file_endpoint scan uuid4 db file))
  | served_delete db address_id :
      served db ->
      served (database (delete_address_endpoint db address_id))
  | served_run db w address_id :
      served db ->
      served (store_after w address_id db).

End Served.


(** ** Request bodies of PUT /addresses/{address_id} *)

Section Bodies.

Context {F : Type}.

(** The body that sets [original_address] and nothing else. *)
Definition only_original_address (text : string) : AddressUpdate F :=
  mkAddressUpdate (Some (Some text)) None None None None None None None None None None.

(** The body that sets [status] and nothing else. *)
Definition only_status (s : AddressStatus) : AddressUpdate F :=
  mkAddressUpdate None None None None None None None None None None (Some (Some s)).

End Bodies.

(** ** Concrete uploads *)

(** The ids [uuid.uuid4] gives in the examples. *)
Definition example_uuid4 (n : nat) : uuid := (100 + N.of_nat n)%N.

(** A sheet of three rows with an [address] column: a text that
    [example_store] holds, a missing cell and a new text. *)
Definition example_frame : dataframe :=
  mkDataFrame ["cliente"; "address"] 3
    (fun col =>
       if String.eqb col "address"
       then [Some (Text example_raw); None; Some (Text "Cra72a#113-21 2do piso")]
       else [Some (Text "Ana"); Some (Text "Luis"); Some (Text "Marta")]).

Definition example_upload : upload_file :=
  mkUploadFile (Some "direcciones.csv") (Raise ValueError) (Ret example_frame).

(** A sheet whose [direccion] column holds a new text and then a number. *)
Definition mixed_frame : dataframe :=
  mkDataFrame ["direccion"] 2
    (fun _ => [Some (Text "Calle 10 # 5-20"); Some (NotText (OtherException "ProgrammingError"))]).

Definition mixed_upload : upload_file :=
  mkUploadFile (Some "clientes.xlsx") (Ret mixed_frame) (Raise ValueError).

(** The store after POST /addresses/ on the empty store and an upload. *)
Definition served_store : gmap uuid (Address decimal) :=
  database
    (upload_file_endpoint key_order example_uuid4
       (database (create_address_endpoint key_order example_id ∅ example_raw))
       example_upload).

(** ** What the database accepts

    Beyond NOT NULL, the commit of an UPDATE is refused for two kinds of
    value the Python code lets through: the driver raises on a text that
    holds the NUL character, and PostgreSQL on a [postal_code], declared
    [String(10)] in [app/models.py], of more than ten characters.  On the
    updates below the commit of the model and the commit of the code
    agree. *)

Definition nul : ascii := "000"%char.

Fixpoint has_nul (s : string) : bool :=
  match s with
  | EmptyString => false
  | String c s' => Ascii.eqb c nul || has_nul s'
  end.

(** A value of a [Text] column. *)
Definition storable_text (v : option string) : bool :=
  match v with
  | Some s => negb (has_nul s)
  | None => true
  end.

(** A value of the [String(10)] column. *)
Definition storable_postal_code (v : option string) : bool :=
  match v with
  | Some s => negb (has_nul s) && (String.length s <=? 10)%nat
  | None => true
  end.

(** A check on a field of an update, when the field is set. *)
Definition when_set {A : Type} (check : option A -> bool) (given : option (option A)) : bool :=
  match given with
  | Some v => check v
  | None => true
  end.

Section Storable.

Context {F : Type}.

(** Every value the update sets is one the database takes. *)
Definition storable_update (u : AddressUpdate F) : bool :=
  when_set storable_text (u_original_address u)
  && when_set storable_text (u_normalized_address u)
  && when_set storable_text (u_suggested_address u)
  && when_set storable_text (u_street_info u)
  && when_set storable_text (u_neighborhood u)
  && when_set storable_text (u_apartment_info u)
  && when_set storable_text (u_notes u)
  && when_set storable_postal_code (u_postal_code u).

(** The four extracted fields of an object, read as column values. *)
Definition storable_fields (fields : list (string * json F)) : bool :=
  forallb (fun key => storable_text (column (field fields key)))
    ["street_info"; "neighborhood"; "apartment_info"; "notes"].

(** The display name and the post code of a geocoding result, read as
    column values. *)
Definition storable_geo (g : GeoResult F) : bool :=
  storable_text (column (g_suggested_address g))
  && storable_postal_code (column (g_postal_code g)).

(** Every update committed in a log is storable. *)
Definition commits_storable (l : list (event F * gmap uuid (Address F))) : bool :=
  forallb (fun entry => match fst entry with
                        | EvCommit _ u => storable_update u
                        | _ => true
                        end) l.

End Storable.

(** ** More concrete services and bodies *)


(** A body that sets the post code and the neighborhood. *)
Definition example_body : AddressUpdate decimal :=
  mkAddressUpdate None None None None (Some (Some "El Poblado")) None None
    None None (Some (Some "050021")) None.
(** * Properties *)

(** ** The shapes of a run *)

Section Shapes.
Context {F : Type} `{PyLib F}.

Lemma extraction_update_inv (v : json F) (upd : AddressUpdate F) :
  extraction_update v = Ret upd ->
  exists fields street nb apartment note normalized,
    v = JObj fields /\
    str_or_none (field fields "street_info") = Ret street /\
    str_or_none (field fields "neighborhood") = Ret nb /\
    str_or_none (field fields "apartment_info") = Ret apartment /\
    str_or_none (field fields "notes") = Ret note /\
    normalized_str (field fields "street_info") (field fields "neighborhood") = Ret normalized /\
    upd = mkAddressUpdate None (Some (Some normalized)) None
            (Some street) (Some nb) (Some apartment) (Some note)
            None None None (Some (Some NORMALIZED)).
Proof.
  unfold extraction_update, get, get_default.
  destruct v as [| | | | |items|fields]; cbn; try discriminate.
  fold (field fields "street_info") (field fields "neighborhood")
       (field fields "apartment_info") (field fields "notes").
  destruct (normalized_str _ _) as [normalized|] eqn:En; cbn; [|discriminate].
  unfold update_data.
  destruct (str_or_none (field fields "street_info")) as [street|] eqn:E1; cbn; [|discriminate].
  destruct (str_or_none (field fields "neighborhood")) as [nb|] eqn:E2; cbn; [|discriminate].
  destruct (str_or_none (field fields "apartment_info")) as [ap|] eqn:E3; cbn; [|discriminate].
  destruct (str_or_none (field fields "notes")) as [note|] eqn:E4; cbn; [|discriminate].
  intros [= <-]. by exists fields, street, nb, ap, note, normalized.
Qed.

Lemma update_geo_inv (g : GeoResult F) (u : AddressUpdate F) :
  update_geo g = Ret u ->
  exists suggested postal,
    str_or_none (g_suggested_address g) = Ret suggested /\
    str_or_none (g_postal_code g) = Ret postal /\
    u = mkAddressUpdate None None (Some suggested) None None None None
          (Some (Some (g_latitude g))) (Some (Some (g_longitude g)))
          (Some postal) (Some (Some VERIFIED)).
Proof.
  unfold update_geo.
  destruct (str_or_none (g_suggested_address g)) as [suggested|]; cbn; [|discriminate].
  destruct (str_or_none (g_postal_code g)) as [postal|]; cbn; [|discriminate].
  intros [= <-]. by exists suggested, postal.
Qed.

Lemma setattrs_returns (a : Address F) (u : AddressUpdate F) (s : AddressStatus) :
  u_original_address u = None ->
  u_status u = Some (Some s) ->
  setattrs a u =
    Ret (mkAddress (id a) (original_address a)
           (assign (u_normalized_address u) (normalized_address a))
           (assign (u_suggested_address u) (suggested_address a))
           (assign (u_street_info u) (street_info a))
           (assign (u_neighborhood u) (neighborhood a))
           (assign (u_apartment_info u) (apartment_info a))
           (assign (u_notes u) (notes a))
           (assign (u_latitude u) (latitude a))
           (assign (u_longitude u) (longitude a))
           (assign (u_postal_code u) (postal_code a))
           s).
Proof. intros Ho Hs. unfold setattrs. by rewrite Ho, Hs. Qed.

Lemma run_shape_complete (w : world F) (address_id : uuid) (store : gmap uuid (Address F)) :
  run_shape w address_id store (run w address_id store).
Proof.
  unfold run, run_processing_pipeline, finally, query_address, mbind, emit, get_address,
    open_session, lift, mret; cbn.
  destruct (store !! address_id) as [a|] eqn:Ea; cbn.
  2: { by apply shape_not_found. }
  destruct (parse_address_with_ai w (original_address a)) as [v|e] eqn:Ep; cbn.
  2: { by eapply shape_extractor_raises. }
  destruct (truthy v) eqn:Et; cbn.
  2: { by eapply shape_extraction_failed. }
  assert (Eu : exists r, extraction_update v = r /\ r =
     (street <- get v "street_info" ;;
      nb <- get v "neighborhood" ;;
      normalized <- normalized_str street nb ;;
      apartment <- get v "apartment_info" ;;
      note <- get v "notes" ;;
      update_data street nb apartment note normalized)%result) by (by eexists).
  destruct Eu as (r & Eu & Er).
  destruct (get v "street_info") as [street|e]; cbn in *;
    [|rewrite Er in Eu; by eapply shape_update_refused].
  destruct (get v "neighborhood") as [nb|e]; cbn in *;
    [|rewrite Er in Eu; by eapply shape_update_refused].
  destruct (normalized_str street nb) as [normalized|e]; cbn in *;
    [|rewrite Er in Eu; by eapply shape_update_refused].
  destruct (get v "apartment_info") as [apartment|e]; cbn in *;
    [|rewrite Er in Eu; by eapply shape_update_refused].
  destruct (get v "notes") as [note|e]; cbn in *;
    [|rewrite Er in Eu; by eapply shape_update_refused].
  destruct (update_data street nb apartment note normalized) as [upd|e]; cbn in *;
    [|rewrite Er in Eu; by eapply shape_update_refused].
  rewrite Er in Eu; clear Er r.
  destruct (extraction_update_inv _ _ Eu) as (fields & st & nb' & ap & nt & nm & -> & _ & _ & _ & _ & _ & Hupd).
  unfold commit_update, update_address, get_address; cbn. rewrite Ea; cbn.
  assert (Hs : exists a1, setattrs a upd = Ret a1).
  { eexists. apply setattrs_returns with (s := NORMALIZED); by rewrite Hupd. }
  destruct Hs as (a1 & Hs). rewrite Hs; cbn.
  unfold refresh; cbn. rewrite lookup_insert_eq.
  destruct (geocode_address w (normalized_address a1)) as [[g|]|e] eqn:Eg; cbn.
  3: { by eapply shape_geocoder_raises. }
  2: { by eapply shape_geocoding_failed. }
  destruct (update_geo g) as [upd_geo|e] eqn:Eug; cbn.
  2: { by eapply shape_geo_update_refused. }
  rewrite lookup_insert_eq.
  assert (Hs2 : exists a2, setattrs a1 upd_geo = Ret a2).
  { destruct (update_geo_inv _ _ Eug) as (sg & pc & _ & _ & ->).
    eexists. by apply setattrs_returns with (s := VERIFIED). }
  destruct Hs2 as (a2 & Hs2). rewrite Hs2; cbn.
  by eapply shape_verified.
Qed.
End Shapes.

(** Case analysis on the shape of the run of [w] on [address_id] from
    [store]; [a] and [Ha] name the row the run loads. *)
Ltac run_cases w address_id store :=
  destruct (run_shape_complete w address_id store) as
    [ Rnone
    | ra re Rrow Rparse
    | ra rv Rrow Rparse Rtruthy
    | ra rv re Rrow Rparse Rtruthy Rupd
    | ra rv rupd ra1 re Rrow Rparse Rtruthy Rupd Rset Rgeo
    | ra rv rupd ra1 Rrow Rparse Rtruthy Rupd Rset Rgeo
    | ra rv rupd ra1 rg re Rrow Rparse Rtruthy Rupd Rset Rgeo Rvalid
    | ra rv rupd ra1 rg rupd_geo ra2 Rrow Rparse Rtruthy Rupd Rset Rgeo Rvalid Rset2 ].

(** ** Strings *)

Lemma append_nil (t : string) : EmptyString ++ t = t.
Proof. reflexivity. Qed.

Lemma append_cons (c : ascii) (s t : string) : String c s ++ t = String c (s ++ t).
Proof. reflexivity. Qed.

Lemma append_assoc (s t u : string) : (s ++ t) ++ u = s ++ t ++ u.
Proof.
  induction s as [|c s IH]; [by rewrite !append_nil|].
  rewrite !append_cons. by rewrite IH.
Qed.


Lemma append_empty_r (s : string) : s ++ EmptyString = s.
Proof. induction s as [|c s IH]; [done|]. rewrite append_cons. by rewrite IH. Qed.

Lemma prefix_cons (a b : ascii) (s t : string) :
  String.prefix (String a s) (String b t)
  = if ascii_dec a b then String.prefix s t else false.
Proof. reflexivity. Qed.


Lemma prefix_fence_intro (v : string) : String.prefix fence (fence ++ v) = true.
Proof.
  unfold fence. rewrite !append_cons, append_nil, !prefix_cons.
  repeat (destruct (ascii_dec _ _); [|congruence]). by destruct v.
Qed.






Lemma prefix_empty (s : string) : String.prefix EmptyString s = true.
Proof. by destruct s. Qed.

Lemma prefix_tick (p : string) (c : ascii) (s : string) :
  String.prefix (String tick p) (String c s) = Ascii.eqb c tick && String.prefix p s.
Proof.
  rewrite prefix_cons.
  destruct (ascii_dec tick c) as [<-|Hne]; [by rewrite Ascii.eqb_refl|].
  destruct (Ascii.eqb_spec c tick); [congruence|done].
Qed.

Lemma replace_from_cons (old new : string) (c : ascii) (s : string) :
  replace_from old new 0 (String c s)
  = if String.prefix old (String c s)
    then new ++ replace_from old new (String.length old - 1) s
    else String c (replace_from old new 0 s).
Proof. reflexivity. Qed.

(** A fence at the head is dropped and the replacement goes on after it. *)
Lemma replace_fence_match (v : string) :
  replace fence EmptyString (fence ++ v) = replace fence EmptyString v.
Proof.
  unfold replace. change (fence ++ v) with (String tick (String tick (String tick v))).
  rewrite replace_from_cons.
  change (String tick (String tick (String tick v))) with (fence ++ v).
  by rewrite prefix_fence_intro.
Qed.

Lemma replace_fence_other (c : ascii) (s : string) :
  String.prefix fence (String c s) = false ->
  replace fence EmptyString (String c s) = String c (replace fence EmptyString s).
Proof. intros Hp. unfold replace. rewrite replace_from_cons. by rewrite Hp. Qed.






(** ** The cleaning of a fenced answer *)

Lemma prefix_self (p t : string) : String.prefix p (p ++ t) = true.
Proof.
  induction p as [|c p IH]; [by rewrite append_nil, prefix_empty|].
  rewrite append_cons, prefix_cons. by destruct (ascii_dec c c).
Qed.

Lemma prefix_json_fence (s : string) :
  String.prefix (fence ++ "json") s = true -> String.prefix fence s = true.
Proof.
  unfold fence. rewrite !append_cons, append_nil.
  destruct s as [|a [|b [|c s]]]; rewrite ?prefix_tick; try (cbn; discriminate);
    try (rewrite ?andb_false_r; discriminate).
  rewrite prefix_empty.
  intros (-> & (-> & (-> & _)%andb_true_iff)%andb_true_iff)%andb_true_iff. done.
Qed.

Lemma replace_json_other (c : ascii) (s : string) :
  String.prefix (fence ++ "json") (String c s) = false ->
  replace (fence ++ "json") EmptyString (String c s)
  = String c (replace (fence ++ "json") EmptyString s).
Proof. intros Hp. unfold replace. rewrite replace_from_cons. by rewrite Hp. Qed.

Lemma replace_json_match (t : string) :
  replace (fence ++ "json") EmptyString ((fence ++ "json") ++ t)
  = replace (fence ++ "json") EmptyString t.
Proof.
  unfold replace.
  change ((fence ++ "json") ++ t)
    with (String tick (String tick (String tick ("json" ++ t)))) at 1.
  rewrite replace_from_cons.
  change (String tick (String tick (String tick ("json" ++ t))))
    with ((fence ++ "json") ++ t).
  by rewrite prefix_self.
Qed.



(** A character that is no backquote cuts every fence. *)
Lemma prefix_fence_cut (x y : string) (d : ascii) :
  Ascii.eqb d tick = false ->
  String.prefix fence (x ++ String d y) = String.prefix fence (x ++ String d EmptyString).
Proof.
  intros Hd. unfold fence.
  destruct x as [|a [|b [|c x]]]; rewrite ?append_cons, ?append_nil, ?prefix_tick, ?Hd,
    ?prefix_empty, ?andb_false_r; done.
Qed.

Lemma replace_fence_before (s0 t : string) (d : ascii) :
  Ascii.eqb d tick = false ->
  has_fence (s0 ++ String d EmptyString) = false ->
  replace fence EmptyString (s0 ++ String d (fence ++ t))
  = s0 ++ String d (replace fence EmptyString t).
Proof.
  intros Hd. induction s0 as [|a s0 IH].
  - intros _. rewrite !append_nil, replace_fence_other, replace_fence_match; [done|].
    unfold fence at 1. by rewrite prefix_tick, Hd.
  - rewrite !append_cons. cbn [has_fence]. intros (Hp & Hs)%orb_false_iff.
    rewrite replace_fence_other, IH; [done|done|].
    change (String a (s0 ++ String d (fence ++ t)))
      with (String a s0 ++ String d (fence ++ t)).
    by rewrite prefix_fence_cut.
Qed.

Lemma replace_json_before (s0 : string) (d : ascii) :
  Ascii.eqb d tick = false ->
  has_fence (s0 ++ String d EmptyString) = false ->
  replace (fence ++ "json") EmptyString (s0 ++ String d fence)
  = s0 ++ String d fence.
Proof.
  intros Hd. induction s0 as [|a s0 IH].
  - intros _. rewrite !append_nil, replace_json_other; [done|].
    unfold fence at 1. by rewrite append_cons, prefix_tick, Hd.
  - rewrite !append_cons. cbn [has_fence]. intros (Hp & Hs)%orb_false_iff.
    rewrite replace_json_other, IH; [done|done|].
    destruct (String.prefix (fence ++ "json") _) eqn:E; [|done].
    apply prefix_json_fence in E.
    change (String a (s0 ++ String d fence)) with (String a s0 ++ String d fence) in E.
    rewrite prefix_fence_cut in E by done. rewrite append_cons in E. congruence.
Qed.

Lemma has_fence_snoc (x : string) (d : ascii) :
  Ascii.eqb d tick = false ->
  has_fence (x ++ String d EmptyString) = has_fence x.
Proof.
  intros Hd. induction x as [|a x IH].
  - rewrite append_nil. cbn [has_fence]. unfold fence. by rewrite prefix_tick, Hd.
  - rewrite append_cons. cbn [has_fence]. rewrite IH. f_equal.
    unfold fence.
    destruct x as [|b [|c x]]; rewrite ?append_cons, ?append_nil, ?prefix_tick, ?Hd,
      ?prefix_empty, ?andb_false_r; done.
Qed.

Lemma has_fence_cons (x : string) (d : ascii) :
  Ascii.eqb d tick = false -> has_fence (String d x) = has_fence x.
Proof. intros Hd. cbn [has_fence]. unfold fence. by rewrite prefix_tick, Hd. Qed.

Lemma rstrip_snoc_space (x : string) (d : ascii) :
  isspace d = true -> rstrip (x ++ String d EmptyString) = rstrip x.
Proof.
  intros Hd. induction x as [|a x IH].
  - rewrite append_nil. cbn. by rewrite Hd.
  - rewrite append_cons. cbn [rstrip]. by rewrite IH.
Qed.

Lemma rstrip_keeps (x : string) (c : ascii) :
  isspace c = false -> rstrip (x ++ String c EmptyString) = x ++ String c EmptyString.
Proof.
  intros Hc. induction x as [|a x IH].
  - rewrite append_nil. cbn. by rewrite Hc.
  - rewrite append_cons. cbn [rstrip]. rewrite IH.
    by destruct x.
Qed.

Lemma strip_snoc_space (x : string) (d : ascii) :
  isspace d = true -> strip (x ++ String d EmptyString) = strip x.
Proof.
  intros Hd. unfold strip. induction x as [|a x IH].
  - rewrite append_nil. cbn. by rewrite Hd.
  - rewrite append_cons. cbn [lstrip]. destruct (isspace a); [done|].
    change (String a (x ++ String d EmptyString)) with (String a x ++ String d EmptyString).
    by apply rstrip_snoc_space.
Qed.

Lemma strip_cons_space (x : string) (d : ascii) :
  isspace d = true -> strip (String d x) = strip x.
Proof. intros Hd. unfold strip. cbn [lstrip]. by rewrite Hd. Qed.

Lemma append_snoc (x y : string) (c : ascii) :
  x ++ String c y = (x ++ String c EmptyString) ++ y.
Proof. by rewrite append_assoc, append_cons, append_nil. Qed.

(** The cleaning of a fenced answer is the answer, stripped. *)
Lemma clean_response_fenced (body : string) :
  has_fence body = false ->
  clean_response (fenced body) = strip body.
Proof.
  intros Hbody.
  assert (Hnl : isspace "010" = true) by reflexivity.
  assert (Hnt : Ascii.eqb "010" tick = false) by reflexivity.
  assert (Hinner : has_fence (String "010" body ++ String "010" EmptyString) = false).
  { by rewrite has_fence_snoc, has_fence_cons. }
  unfold clean_response, fenced, newline.
  (* the outer strip removes the last line break only *)
  assert (Hstrip : strip (fence ++ "json" ++ String "010" EmptyString ++ body
                            ++ String "010" EmptyString ++ fence ++ String "010" EmptyString)
                   = (fence ++ "json") ++ String "010" body ++ String "010" fence).
  { transitivity (strip (((fence ++ "json") ++ String "010" body ++ String "010" fence)
                           ++ String "010" EmptyString)).
    { f_equal. unfold fence.
      by repeat first [rewrite append_assoc | rewrite append_cons | rewrite append_nil]. }
    rewrite strip_snoc_space by done.
    unfold strip.
    change (lstrip ((fence ++ "json") ++ String "010" body ++ String "010" fence))
      with ((fence ++ "json") ++ String "010" body ++ String "010" fence).
    unfold fence at 2.
    rewrite (append_snoc (String "010" body)), (append_snoc _ (String tick _)),
      (append_snoc _ (String tick EmptyString)), <- !append_assoc .
    rewrite rstrip_keeps by done. unfold fence.
    by repeat first [rewrite append_assoc | rewrite append_cons | rewrite append_nil]. }
  rewrite Hstrip, replace_json_match.
  rewrite replace_json_before by done.
  rewrite <- (append_empty_r fence) at 2.
  rewrite replace_fence_before by done.
  change (replace fence EmptyString EmptyString) with EmptyString.
  change (String "010" body ++ String "010" EmptyString)
    with (String "010" (body ++ String "010" EmptyString)).
  by rewrite strip_cons_space, strip_snoc_space.
Qed.

(** ** The cleaning of an answer without fence *)







(** ** Texts without NUL *)

Lemma has_nul_append (s t : string) : has_nul (s ++ t) = has_nul s || has_nul t.
Proof.
  induction s as [|c s IH]; [done|].
  rewrite append_cons. cbn [has_nul]. by rewrite IH, orb_assoc.
Qed.

Lemma kept_storable (part : option string) (s : string) :
  storable_text part = true -> kept part = Some s -> has_nul s = false.
Proof.
  destruct part as [t|]; cbn; [|discriminate].
  destruct (String.eqb t EmptyString); [discriminate|].
  intros Ht [= <-]. by destruct (has_nul t).
Qed.

(** The join of parts without NUL holds no NUL. *)
Lemma kept_normalized_address_storable (street nb : option string) :
  storable_text street = true ->
  storable_text nb = true ->
  has_nul (kept_normalized_address street nb) = false.
Proof.
  intros Hs Hn. unfold kept_normalized_address, join; cbn.
  destruct (kept street) as [s|] eqn:Es, (kept nb) as [t|] eqn:Et; cbn;
    rewrite ?has_nul_append, ?(kept_storable _ _ Hs Es), ?(kept_storable _ _ Hn Et); done.
Qed.

(** ** Runs that stop early *)

Section Halting.
Context {F : Type} `{PyLib F}.

(** C9: a run whose address id does not resolve returns to its caller
    without raising, leaves the store as it was, and its log holds the
    query and the closing of the session only: no extraction, no
    geocoding, no commit. *)
Theorem run_on_unknown_id (w : world F) (address_id : uuid) (store : gmap uuid (Address F)) :
  store !! address_id = None ->
  run w address_id store
    = (Ret tt, mkSession store [(EvQuery address_id, store); (EvClose, store)]).
Proof.
  intros Hnone.
  run_cases w address_id store; congruence.
Qed.

Lemma session_when_extraction_failed
    (w : world F) (address_id : uuid) (store : gmap uuid (Address F)) (a : Address F) :
  store !! address_id = Some a ->
  extraction_failed w a = true ->
  snd (run w address_id store)
    = mkSession store
        [(EvQuery address_id, store); (EvExtract (original_address a), store);
         (EvClose, store)].
Proof.
  intros Ha Hfail. unfold extraction_failed in Hfail.
  run_cases w address_id store;
    try congruence;
    assert (ra = a) by congruence; subst ra;
    rewrite Rparse in Hfail; try (rewrite Rtruthy in Hfail; discriminate); done.
Qed.

(** C2: when the extractor returns a false value or raises, the store after
    the run is the store before it, so no field of the row changed and its
    status is what it was ([PENDING] stays [PENDING]); the log holds no
    commit and no geocoding, and each of its snapshots is the initial store.
    When the extractor returned [None] the run ends without raising. *)
Theorem extraction_failure_changes_nothing
    (w : world F) (address_id : uuid) (store : gmap uuid (Address F)) (a : Address F) :
  store !! address_id = Some a ->
  extraction_failed w a = true ->
  store_after w address_id store = store
  /\ store_after w address_id store !! address_id = Some a
  /\ (status a = PENDING ->
      status <$> (store_after w address_id store !! address_id) = Some PENDING)
  /\ (forall e snapshot,
        In (e, snapshot) (log (snd (run w address_id store))) ->
        is_commit e = false /\ is_geocode e = false /\ snapshot = store)
  /\ (parse_address_with_ai w (original_address a) = Ret JNull ->
      fst (run w address_id store) = Ret tt).
Proof.
  intros Ha Hfail. unfold store_after.
  rewrite (session_when_extraction_failed w address_id store a Ha Hfail); cbn.
  split; [done|]. split; [done|]. split.
  { intros Hs. by rewrite Ha; cbn; rewrite Hs. }
  split.
  { intros e snapshot [[= <- <-]|[[= <- <-]|[[= <- <-]|[]]]]; done. }
  intros Hnull.
  run_cases w address_id store;
    try done;
    assert (ra = a) by congruence; subst ra;
    rewrite Rparse in Hnull; try discriminate;
    injection Hnull as ->; discriminate.
Qed.

End Halting.

(** ** What the extraction-success update persists *)

Section Extraction.
Context {F : Type} `{PyLib F}.

(** The row the extraction-success update leaves. *)
Lemma extraction_row (a a1 : Address F) (v : json F) (upd : AddressUpdate F) :
  extraction_update v = Ret upd ->
  setattrs a upd = Ret a1 ->
  u_normalized_address upd = Some (normalized_address a1)
  /\ u_street_info upd = Some (street_info a1)
  /\ u_neighborhood upd = Some (neighborhood a1)
  /\ u_apartment_info upd = Some (apartment_info a1)
  /\ u_notes upd = Some (notes a1)
  /\ u_status upd = Some (Some NORMALIZED)
  /\ status a1 = NORMALIZED
  /\ is_Some (normalized_address a1)
  /\ latitude a1 = latitude a
  /\ longitude a1 = longitude a
  /\ suggested_address a1 = suggested_address a
  /\ postal_code a1 = postal_code a
  /\ original_address a1 = original_address a
  /\ id a1 = id a.
Proof.
  intros Hu Hs.
  destruct (extraction_update_inv _ _ Hu) as (fields & st & nb & ap & nt & nm & -> & _ & _ & _ & _ & _ & ->).
  rewrite (setattrs_returns a _ NORMALIZED) in Hs by done.
  injection Hs as <-. cbn. repeat split; eauto.
Qed.


Lemma str_or_none_column (v : json F) :
  str_or_null v = true -> str_or_none v = Ret (column v).
Proof. by destruct v. Qed.

Lemma normalized_str_kept (street nb : json F) :
  str_or_null street = true ->
  str_or_null nb = true ->
  normalized_str street nb = Ret (kept_normalized_address (column street) (column nb)).
Proof.
  unfold normalized_str, kept_normalized_address, norm_parts, py_join.
  destruct street as [| | | |s| |]; try discriminate;
    destruct nb as [| | | |t| |]; try discriminate; intros _ _; cbn;
    repeat match goal with
           | |- context [String.eqb ?x EmptyString] => destruct (String.eqb x EmptyString); cbn
           end; reflexivity.
Qed.

(** The update the orchestrator builds from an object whose four fields
    are strings or nulls. *)
Lemma extraction_update_typed (fields : list (string * json F)) :
  typed_fields fields = true ->
  extraction_update (JObj fields)
    = Ret (mkAddressUpdate None
             (Some (Some (kept_normalized_address
                            (column (field fields "street_info"))
                            (column (field fields "neighborhood")))))
             None
             (Some (column (field fields "street_info")))
             (Some (column (field fields "neighborhood")))
             (Some (column (field fields "apartment_info")))
             (Some (column (field fields "notes")))
             None None None (Some (Some NORMALIZED))).
Proof.
  unfold typed_fields; cbn. rewrite !andb_true_iff.
  intros (H1 & H2 & H3 & H4 & _).
  unfold extraction_update, get, get_default; cbn.
  fold (field fields "street_info") (field fields "neighborhood")
       (field fields "apartment_info") (field fields "notes").
  rewrite (normalized_str_kept _ _ H1 H2); cbn.
  unfold update_data.
  by rewrite !str_or_none_column.
Qed.

(** A run whose extraction succeeded logs the commit, then the call of the
    geocoder on the committed normalized address. *)
Lemma extraction_commit_logged
    (w : world F) (address_id : uuid) (store : gmap uuid (Address F))
    (a a1 : Address F) (v : json F) (upd : AddressUpdate F) :
  store !! address_id = Some a ->
  parse_address_with_ai w (original_address a) = Ret v ->
  truthy v = true ->
  extraction_update v = Ret upd ->
  setattrs a upd = Ret a1 ->
  exists tail,
    log (snd (run w address_id store))
      = ([(EvQuery address_id, store); (EvExtract (original_address a), store);
          (EvCommit address_id upd, <[address_id := a1]> store);
          (EvGeocode (normalized_address a1), <[address_id := a1]> store)] ++ tail)%list.
Proof.
  intros Ha Hp Ht Hu Hs.
  run_cases w address_id store; try congruence;
    assert (ra = a) by congruence; subst ra;
    assert (rv = v) by congruence; subst rv;
    try congruence;
    assert (rupd = upd) by congruence; subst rupd;
    assert (ra1 = a1) by congruence; subst ra1;
    cbn; eexists; reflexivity.
Qed.


(** When no part is the empty string, the two joins agree. *)
Lemma kept_is_spec (street nb : option string) :
  street <> Some EmptyString ->
  nb <> Some EmptyString ->
  kept_normalized_address street nb = spec_normalized_address street nb.
Proof.
  intros Hs Hn. unfold kept_normalized_address, spec_normalized_address.
  f_equal.
  assert (Hk : forall part : option string, part <> Some EmptyString -> kept part = part).
  { intros [s|] Hne; cbn; [|done].
    destruct (String.eqb_spec s EmptyString) as [->|]; [done|done]. }
  cbn. by rewrite (Hk street Hs), (Hk nb Hn).
Qed.

(** The update built from fields without NUL is one the database takes. *)
Lemma extraction_update_storable (fields : list (string * json F)) (upd : AddressUpdate F) :
  typed_fields fields = true ->
  storable_fields fields = true ->
  extraction_update (JObj fields) = Ret upd ->
  storable_update upd = true.
Proof.
  intros Hty Hst Hu. rewrite (extraction_update_typed fields Hty) in Hu.
  injection Hu as <-.
  unfold storable_fields in Hst; cbn [forallb] in Hst. rewrite !andb_true_iff in Hst.
  destruct Hst as (H1 & H2 & H3 & H4 & _).
  unfold storable_update.
  cbn [u_original_address u_normalized_address u_suggested_address u_street_info
       u_neighborhood u_apartment_info u_notes u_postal_code when_set].
  rewrite H1, H2, H3, H4. cbn [storable_text].
  by rewrite (kept_normalized_address_storable _ _ H1 H2).
Qed.

(** C4, as the code has it: for an extraction result whose four fields are
    nulls or strings the database takes (without NUL), the update the
    pipeline builds is one the database takes, it is committed, and the
    normalized address it commits is the join with a comma and a space of
    the elements of [street_info, neighborhood, Medellin, Colombia] that
    are neither null nor the empty string; it is the join of the non-null
    elements whenever neither extracted field is the empty string. *)
Theorem normalized_address_joins_kept_parts
    (w : world F) (address_id : uuid) (store : gmap uuid (Address F))
    (a : Address F) (fields : list (string * json F)) :
  store !! address_id = Some a ->
  parse_address_with_ai w (original_address a) = Ret (JObj fields) ->
  fields <> [] ->
  typed_fields fields = true ->
  storable_fields fields = true ->
  exists upd a1,
    In (EvCommit address_id upd, <[address_id := a1]> store)
       (log (snd (run w address_id store)))
    /\ storable_update upd = true
    /\ u_normalized_address upd
       = Some (Some (kept_normalized_address
                       (column (field fields "street_info"))
                       (column (field fields "neighborhood"))))
    /\ normalized_address a1
       = Some (kept_normalized_address
                 (column (field fields "street_info"))
                 (column (field fields "neighborhood")))
    /\ (column (field fields "street_info") <> Some EmptyString ->
        column (field fields "neighborhood") <> Some EmptyString ->
        normalized_address a1
        = Some (spec_normalized_address
                  (column (field fields "street_info"))
                  (column (field fields "neighborhood")))).
Proof.
  intros Ha Hp Hne Hty Hst.
  pose proof (extraction_update_typed fields Hty) as Hu.
  pose proof (extraction_update_storable fields _ Hty Hst Hu) as Hok.
  assert (Ht : truthy (JObj fields) = true) by (by destruct fields).
  match type of Hu with _ = Ret ?u => set (upd := u) in * end.
  pose proof (setattrs_returns a upd NORMALIZED eq_refl eq_refl) as Hs.
  destruct (extraction_commit_logged w address_id store a _ _ _ Ha Hp Ht Hu Hs) as (tail & Hlog).
  eexists _, _. rewrite Hlog. split; [cbn; tauto|]. split; [exact Hok|].
  split; [done|]. split; [done|].
  intros H1 H2. by rewrite <- (kept_is_spec _ _ H1 H2).
Qed.


End Extraction.

(** ** The geocoder *)

Section Geocoder.
Context {F : Type} `{PyLib F}.

(** C5, as the code has it: the geocoder returns [None] without calling
    the service on a null or empty address, and returns [None] when the
    request raises a [RequestException] (a connection error, a timeout),
    when the response has an error status, when reading its JSON raises a
    [RequestException], and when the decoded body is false (the empty
    array); whenever it returns a result, that result holds both
    coordinates, read by [float] from [lat] and [lon] of the first match
    of a non-empty array, together with [display_name] and the post code
    as the match has them, null when it has none. *)
Theorem geocode_address_outcomes (w : world F) :
  geocode_address w None = Ret None
  /\ geocode_address w (Some EmptyString) = Ret None
  /\ (forall q k,
        requests_get w q = Raise (RequestException k) ->
        geocode_address w (Some q) = Ret None)
  /\ (forall q response,
        requests_get w q = Ret response ->
        400 <= status_code response < 600 ->
        geocode_address w (Some q) = Ret None)
  /\ (forall q response k,
        requests_get w q = Ret response ->
        response_json response = Raise (RequestException k) ->
        geocode_address w (Some q) = Ret None)
  /\ (forall q response data,
        requests_get w q = Ret response ->
        response_json response = Ret data ->
        truthy data = false ->
        geocode_address w (Some q) = Ret None)
  /\ (forall address g,
        geocode_address w address = Ret (Some g) ->
        exists q response fields others,
          address = Some q
          /\ q <> EmptyString
          /\ requests_get w q = Ret response
          /\ ~ (400 <= status_code response < 600)
          /\ response_json response = Ret (JArr (JObj fields :: others))
          /\ float (field fields "lat") = Ret (g_latitude g)
          /\ float (field fields "lon") = Ret (g_longitude g)
          /\ g_suggested_address g = field fields "display_name"
          /\ get (match assoc "address" fields with
                  | Some details => details
                  | None => JObj []
                  end) "postcode" = Ret (g_postal_code g)).
Proof.
  split; [done|]. split; [done|].
  assert (Hstatus : forall response : http_response F,
            400 <= status_code response < 600 ->
            raise_for_status response = Raise (RequestException HTTPError)).
  { intros response Hr. unfold raise_for_status.
    destruct (400 <=? status_code response) eqn:E1;
      destruct (status_code response <? 600) eqn:E2; cbn; try done; lia. }
  split.
  { intros q k Hget. unfold geocode_address.
    destruct (String.eqb q EmptyString); [done|]. by rewrite Hget. }
  split.
  { intros q response Hget Hr. unfold geocode_address.
    destruct (String.eqb q EmptyString); [done|].
    rewrite Hget; cbn. by rewrite (Hstatus response Hr). }
  split.
  { intros q response k Hget Hjson. unfold geocode_address.
    destruct (String.eqb q EmptyString); [done|].
    rewrite Hget; cbn. unfold raise_for_status.
    destruct ((400 <=? status_code response) && (status_code response <? 600)); cbn; [done|].
    by rewrite Hjson. }
  split.
  { intros q response data Hget Hjson Hfalse. unfold geocode_address.
    destruct (String.eqb q EmptyString); [done|].
    rewrite Hget; cbn. unfold raise_for_status.
    destruct ((400 <=? status_code response) && (status_code response <? 600)); cbn; [done|].
    rewrite Hjson; cbn. by rewrite Hfalse. }
  intros [q|] g; [|discriminate]. unfold geocode_address.
  destruct (String.eqb_spec q EmptyString) as [->|Hq]; [discriminate|].
  destruct (requests_get w q) as [response|e] eqn:Hget; cbn;
    [|destruct e; discriminate].
  unfold raise_for_status.
  destruct ((400 <=? status_code response) && (status_code response <? 600)) eqn:Hs;
    cbn; [discriminate|].
  destruct (response_json response) as [data|e] eqn:Hjson; cbn;
    [|destruct e; discriminate].
  destruct (truthy data) eqn:Ht; cbn; [|discriminate].
  destruct data as [| | | |s|[|first others]|fields]; cbn; try discriminate.
  { destruct s; cbn; discriminate. }
  destruct first as [| | | | | |fields]; cbn; try discriminate.
  fold (field fields "lat") (field fields "lon") (field fields "display_name").
  destruct (float (field fields "lat")) as [lat|e] eqn:Hlat; cbn; [|destruct e; discriminate].
  destruct (float (field fields "lon")) as [lon|e] eqn:Hlon; cbn; [|destruct e; discriminate].
  destruct (get _ "postcode") as [postcode|e] eqn:Hpost; cbn; [|destruct e; discriminate].
  intros [= <-]. exists q, response, fields, others; cbn.
  repeat split; try done.
  intros Hr. apply andb_false_iff in Hs. destruct Hs as [Hs|Hs]; lia.
Qed.

End Geocoder.

(** ** The extractor *)

Section Extractor.
Context {F : Type} `{PyLib F}.


End Extractor.

(** ** Coordinates *)

Section Coordinates.
Context {F : Type} `{PyLib F}.

(** The row the geocoding-success update leaves. *)
Lemma geocoded_row (a1 a2 : Address F) (g : GeoResult F) (u : AddressUpdate F) :
  update_geo g = Ret u ->
  setattrs a1 u = Ret a2 ->
  u_latitude u = Some (Some (g_latitude g))
  /\ u_longitude u = Some (Some (g_longitude g))
  /\ u_status u = Some (Some VERIFIED)
  /\ latitude a2 = Some (g_latitude g)
  /\ longitude a2 = Some (g_longitude g)
  /\ status a2 = VERIFIED.
Proof.
  intros Hu Hs.
  destruct (update_geo_inv _ _ Hu) as (suggested & postal & _ & _ & ->).
  rewrite (setattrs_returns a1 _ VERIFIED) in Hs by done.
  by injection Hs as <-.
Qed.

Lemma located_after_extraction (a a1 : Address F) (v : json F) (upd : AddressUpdate F) :
  extraction_update v = Ret upd ->
  setattrs a upd = Ret a1 ->
  located a ->
  located a1.
Proof.
  intros Hu Hs [_ Hpair].
  destruct (extraction_row a a1 v upd Hu Hs)
    as (_ & _ & _ & _ & _ & _ & Hstatus & _ & Hlat & Hlon & _).
  split.
  - intros Hv. congruence.
  - unfold coordinates_paired. by rewrite Hlat, Hlon.
Qed.

Lemma located_after_geocoding (a1 a2 : Address F) (g : GeoResult F) (u : AddressUpdate F) :
  update_geo g = Ret u ->
  setattrs a1 u = Ret a2 ->
  located a2.
Proof.
  intros Hu Hs.
  destruct (geocoded_row a1 a2 g u Hu Hs) as (_ & _ & _ & Hlat & Hlon & _).
  split.
  - intros _. rewrite Hlat, Hlon. eauto.
  - unfold coordinates_paired. rewrite Hlat, Hlon. split; eauto.
Qed.

Lemma located_insert (store : gmap uuid (Address F)) (address_id : uuid) (a : Address F) :
  (forall i b, store !! i = Some b -> located b) ->
  located a ->
  forall i b, <[address_id := a]> store !! i = Some b -> located b.
Proof.
  intros Hstore Ha i b. destruct (decide (address_id = i)) as [->|Hne].
  - rewrite lookup_insert_eq. by intros [= <-].
  - rewrite lookup_insert_ne by done. apply Hstore.
Qed.

Lemma located_snapshots
    (w : world F) (address_id : uuid) (store : gmap uuid (Address F))
    (e : event F) (snapshot : gmap uuid (Address F)) :
  (forall i b, store !! i = Some b -> located b) ->
  In (e, snapshot) (log (snd (run w address_id store))) ->
  forall i b, snapshot !! i = Some b -> located b.
Proof.
  intros Hstore Hin.
  run_cases w address_id store; cbn in Hin;
    repeat (destruct Hin as [[= <- <-]|Hin]; try done);
    try (destruct Hin; fail).
  all: try (apply located_insert; [done|];
            eapply located_after_extraction; [done|done|]; by eapply Hstore).
  all: apply located_insert;
    [ apply located_insert; [done|];
      eapply located_after_extraction; [done|done|]; by eapply Hstore
    | by eapply located_after_geocoding ].
Qed.

Lemma verified_commit_sets_both
    (w : world F) (address_id : uuid) (store : gmap uuid (Address F))
    (e : event F) (snapshot : gmap uuid (Address F)) (i : uuid) (u : AddressUpdate F) :
  In (e, snapshot) (log (snd (run w address_id store))) ->
  e = EvCommit i u ->
  u_status u = Some (Some VERIFIED) ->
  exists lat lon, u_latitude u = Some (Some lat) /\ u_longitude u = Some (Some lon).
Proof.
  intros Hin -> Hv.
  run_cases w address_id store; cbn in Hin;
    repeat (destruct Hin as [[= <- <-]|Hin]; try done);
    try (destruct Hin; fail).
  all: try (destruct (extraction_row _ _ _ _ Rupd Rset) as (_ & _ & _ & _ & _ & Hst & _);
            congruence).
  all: destruct (geocoded_row _ _ _ _ Rvalid Rset2) as (Hlat & Hlon & _); eauto.
Qed.

(** C7: in every store the record store and the pipeline can produce,
    snapshots in the middle of a run included, a row whose status is
    [VERIFIED] has a latitude and a longitude, and every row has both
    coordinates or none; and every update a run commits with status
    [VERIFIED] sets the latitude and the longitude in that same update. *)
Theorem verified_rows_have_coordinates (store : gmap uuid (Address F)) :
  reachable store ->
  (forall address_id a,
     store !! address_id = Some a ->
     verified_located a /\ coordinates_paired a)
  /\ (forall w address_id e snapshot i u,
        In (e, snapshot) (log (snd (run w address_id store))) ->
        e = EvCommit i u ->
        u_status u = Some (Some VERIFIED) ->
        exists lat lon, u_latitude u = Some (Some lat) /\ u_longitude u = Some (Some lon)).
Proof.
  intros Hreach. split; [|intros; by eapply verified_commit_sets_both].
  change (forall i b, store !! i = Some b -> located b).
  induction Hreach as
    [ | store fresh original store' row _ IH Hcreate
      | store address_id _ IH
      | store w address_id e snapshot _ IH Hin ].
  - intros i b. by rewrite lookup_empty.
  - unfold create_address in Hcreate.
    destruct (store !! fresh); [discriminate|]. injection Hcreate as <- <-.
    apply located_insert; [done|]. split.
    + intros [=].
    + unfold coordinates_paired; cbn. split; intros [? [=]].
  - unfold delete_address, get_address.
    destruct (store !! address_id) eqn:E; cbn; [|done].
    intros i b Hi. apply lookup_delete_Some in Hi as [_ Hi]. by eapply IH.
  - by eapply located_snapshots.
Qed.

End Coordinates.

(** ** The life cycle *)

Section LifeCycle.
Context {F : Type} `{PyLib F}.

Lemma forward_refl (s : AddressStatus) : forward s s.
Proof. unfold forward. lia. Qed.

Lemma forward_normalized (s : AddressStatus) : s <> VERIFIED -> forward s NORMALIZED.
Proof. unfold forward. destruct s; cbn; [lia|lia|done]. Qed.

Lemma forward_verified (s : AddressStatus) : forward s VERIFIED.
Proof. unfold forward. destruct s; cbn; lia. Qed.

Create HintDb lifecycle.

#[local] Hint Resolve forward_refl forward_normalized forward_verified : lifecycle.

(** The statuses a row goes through in the log of one run, when the run
    is on that row. *)
Lemma status_trail_cases
    (w : world F) (address_id : uuid) (store : gmap uuid (Address F)) (a : Address F) :
  store !! address_id = Some a ->
  let s := status a in
  let trail := status_trail address_id (log (snd (run w address_id store))) in
  trail = [s; s; s]
  \/ trail = [s; s; NORMALIZED; NORMALIZED; NORMALIZED]
  \/ trail = [s; s; NORMALIZED; NORMALIZED; VERIFIED; VERIFIED].
Proof.
  intros Ha; cbn.
  run_cases w address_id store; try congruence;
    assert (ra = a) by congruence; subst ra;
    unfold status_trail; cbn;
    rewrite ?lookup_insert_eq, ?Ha; cbn.
  1-3: by left.
  1-3: right; left;
    by destruct (extraction_row _ _ _ _ Rupd Rset) as (_ & _ & _ & _ & _ & _ & -> & _).
  right; right.
  destruct (extraction_row _ _ _ _ Rupd Rset) as (_ & _ & _ & _ & _ & _ & -> & _).
  by destruct (geocoded_row _ _ _ _ Rvalid Rset2) as (_ & _ & _ & _ & _ & ->).
Qed.

(** A run on one row leaves the other rows as they are, in each snapshot
    of its log. *)
Lemma other_rows_untouched
    (w : world F) (address_id i : uuid) (store : gmap uuid (Address F))
    (e : event F) (snapshot : gmap uuid (Address F)) :
  address_id <> i ->
  In (e, snapshot) (log (snd (run w address_id store))) ->
  snapshot !! i = store !! i.
Proof.
  intros Hne Hin.
  run_cases w address_id store; cbn in Hin;
    repeat (destruct Hin as [[= <- <-]|Hin]; try done);
    try (destruct Hin; fail);
    by rewrite ?lookup_insert_ne.
Qed.

Lemma status_trail_other
    (w : world F) (address_id i : uuid) (store : gmap uuid (Address F)) (a : Address F) :
  address_id <> i ->
  store !! i = Some a ->
  Forall (fun s => s = status a)
    (status_trail i (log (snd (run w address_id store)))).
Proof.
  intros Hne Ha. unfold status_trail.
  pose proof (other_rows_untouched w address_id i store) as Hsame.
  induction (log (snd (run w address_id store))) as [|[e snapshot] l IH]; cbn; [done|].
  rewrite (Hsame e snapshot) by (done || (cbn; tauto)). rewrite Ha; cbn.
  constructor; [done|]. apply IH. intros e' s' Hne' Hin. apply (Hsame e' s'); [done|cbn; tauto].
Qed.

(** The store a run leaves is the last snapshot of its log. *)
Lemma final_snapshot (w : world F) (address_id : uuid) (store : gmap uuid (Address F)) :
  exists l,
    log (snd (run w address_id store)) = (l ++ [(EvClose, store_after w address_id store)])%list.
Proof.
  unfold store_after.
  run_cases w address_id store; cbn.
  - by exists [(EvQuery address_id, store)].
  - by eexists [_; _].
  - by eexists [_; _].
  - by eexists [_; _].
  - by eexists [_; _; _; _].
  - by eexists [_; _; _; _].
  - by eexists [_; _; _; _].
  - by eexists [_; _; _; _; _].
Qed.

(** One run keeps every row, and brings none back to [PENDING]. *)
Lemma run_keeps_rows
    (w : world F) (address_id i : uuid) (store : gmap uuid (Address F)) (a : Address F) :
  store !! i = Some a ->
  exists a',
    store_after w address_id store !! i = Some a'
    /\ (status a' = PENDING -> status a = PENDING)
    /\ (status a <> VERIFIED -> forward (status a) (status a')).
Proof.
  intros Ha. unfold store_after.
  destruct (decide (address_id = i)) as [->|Hne].
  - run_cases w i store; try congruence;
      assert (ra = a) by congruence; subst ra; cbn;
      rewrite ?lookup_insert_eq;
      try (exists a; split; [done|]; split; [done|]; eauto with lifecycle; fail).
    + exists ra1.
      destruct (extraction_row _ _ _ _ Rupd Rset) as (_ & _ & _ & _ & _ & _ & -> & _).
      split; [done|]. split; [done|]. eauto with lifecycle.
    + exists ra1.
      destruct (extraction_row _ _ _ _ Rupd Rset) as (_ & _ & _ & _ & _ & _ & -> & _).
      split; [done|]. split; [done|]. eauto with lifecycle.
    + exists ra1.
      destruct (extraction_row _ _ _ _ Rupd Rset) as (_ & _ & _ & _ & _ & _ & -> & _).
      split; [done|]. split; [done|]. eauto with lifecycle.
    + exists ra2.
      destruct (geocoded_row _ _ _ _ Rvalid Rset2) as (_ & _ & _ & _ & _ & ->).
      split; [done|]. split; [done|]. eauto with lifecycle.
  - destruct (final_snapshot w address_id store) as (l & Hl).
    exists a. unfold store_after in Hl.
    rewrite (other_rows_untouched w address_id i store EvClose _ Hne).
    + split; [done|]. split; [done|]. eauto with lifecycle.
    + rewrite Hl. apply in_or_app. right. by left.
Qed.

Lemma runs_keep_rows
    (runs : list (world F * uuid)) (i : uuid) (store : gmap uuid (Address F)) (a : Address F) :
  store !! i = Some a ->
  exists a',
    store_after_runs runs store !! i = Some a'
    /\ (status a' = PENDING -> status a = PENDING).
Proof.
  revert store a. induction runs as [|[w address_id] runs IH]; intros store a Ha; cbn.
  - by exists a.
  - destruct (run_keeps_rows w address_id i store a Ha) as (a1 & Ha1 & Hback & _).
    destruct (IH _ _ Ha1) as (a' & Ha' & Hback').
    exists a'. split; [done|]. intros Hp. by apply Hback, Hback'.
Qed.

(** C1, as the code has it: in a run started while the row is [PENDING] or
    [NORMALIZED], the statuses the row takes in the successive committed
    stores never go backward, and the status the run leaves is the initial
    one or a later one; and no sequence of runs deletes a row or brings
    one back to [PENDING].  (A run on a [VERIFIED] row whose extraction
    succeeds sets it to [NORMALIZED].) *)
Theorem status_forward_from_pending_or_normalized :
  (forall (w : world F) (address_id i : uuid) (store : gmap uuid (Address F)) (a : Address F),
     store !! i = Some a ->
     status a <> VERIFIED ->
     StronglySorted forward
       (status a :: status_trail i (log (snd (run w address_id store))))
     /\ exists a',
          store_after w address_id store !! i = Some a'
          /\ forward (status a) (status a'))
  /\ (forall (runs : list (world F * uuid)) (i : uuid)
             (store : gmap uuid (Address F)) (a : Address F),
        store !! i = Some a ->
        exists a',
          store_after_runs runs store !! i = Some a'
          /\ (status a' = PENDING -> status a = PENDING)).
Proof.
  split; [|apply runs_keep_rows].
  intros w address_id i store a Ha Hnv. split.
  - destruct (decide (address_id = i)) as [->|Hne].
    + destruct (status_trail_cases w i store a Ha) as [-> | [-> | ->]];
        repeat (constructor; eauto with lifecycle).
    + pose proof (status_trail_other w address_id i store a Hne Ha) as Hall.
      induction Hall as [|s l -> _ IH]; [repeat constructor|].
      inversion IH as [|? ? Hsorted Hhead]; subst.
      constructor; [by constructor|]. constructor; eauto with lifecycle.
  - destruct (run_keeps_rows w address_id i store a Ha) as (a' & Ha' & _ & Hfw).
    exists a'. eauto.
Qed.

End LifeCycle.

(** ** The order of the two steps *)

Section Order.
Context {F : Type} `{PyLib F}.

(** C8: wherever the log of a run holds a call of the geocoder, what
    stands before it is the query of the row, the call of the extractor,
    which returned a true value, and the commit of the extraction-success
    update, in this order and nothing else; the committed store at the
    moment of the call is the store that commit produced, in which the row
    has status [NORMALIZED] and the normalized address the geocoder is
    called with; and no extraction follows.  So the geocoder is never
    called after a failed extraction, and a run cut between the two steps
    leaves the row [NORMALIZED]. *)
Theorem geocoding_follows_committed_extraction
    (w : world F) (address_id : uuid) (store : gmap uuid (Address F))
    (before after : list (event F * gmap uuid (Address F)))
    (q : option string) (snapshot : gmap uuid (Address F)) :
  log (snd (run w address_id store)) = (before ++ (EvGeocode q, snapshot) :: after)%list ->
  exists a v upd a1,
    store !! address_id = Some a
    /\ parse_address_with_ai w (original_address a) = Ret v
    /\ truthy v = true
    /\ extraction_failed w a = false
    /\ extraction_update v = Ret upd
    /\ before = [(EvQuery address_id, store); (EvExtract (original_address a), store);
                 (EvCommit address_id upd, snapshot)]
    /\ u_status upd = Some (Some NORMALIZED)
    /\ snapshot = <[address_id := a1]> store
    /\ snapshot !! address_id = Some a1
    /\ status a1 = NORMALIZED
    /\ normalized_address a1 = q
    /\ is_Some q
    /\ (forall e s, In (e, s) after -> is_extract e = false /\ is_geocode e = false).
Proof.
  intros Hlog.
  run_cases w address_id store; cbn in Hlog;
    repeat (destruct before as [|? before]; simplify_eq/=).
  all: destruct (extraction_row _ _ _ _ Rupd Rset)
         as (_ & _ & _ & _ & _ & Hst & Hstatus & Hsome & _).
  all: exists ra, rv, rupd, ra1.
  all: repeat (split; [first [done | by apply lookup_insert_eq
                             | by unfold extraction_failed; rewrite Rparse, Rtruthy]|]).
  all: intros e s Hin; repeat (destruct Hin as [[= <- <-]|Hin]; try done);
    destruct Hin.
Qed.

End Order.

(** ** Further properties of a run *)

Section Further.
Context {F : Type} `{PyLib F}.

(** X1: a run on one address id leaves every other row as it was, in the
    store it ends with and in every committed store on the way. *)
Theorem run_leaves_other_rows
    (w : world F) (address_id i : uuid) (store : gmap uuid (Address F)) :
  address_id <> i ->
  store_after w address_id store !! i = store !! i
  /\ forall e snapshot,
       In (e, snapshot) (log (snd (run w address_id store))) ->
       snapshot !! i = store !! i.
Proof.
  intros Hne. split.
  - destruct (final_snapshot w address_id store) as (l & Hl).
    apply (other_rows_untouched w address_id i store EvClose _ Hne).
    rewrite Hl. apply in_or_app. right. by left.
  - intros e snapshot. by apply other_rows_untouched.
Qed.

(** X2: when the extractor returns a non-empty object whose four fields are
    nulls or strings, the geocoder returns a result whose display name and
    post code are nulls or strings, and these are values the database takes
    (no NUL in a text, at most ten characters in the post code), then both
    updates the run builds are ones the database takes, the run ends
    without raising and leaves the row with the extracted columns, the
    joined normalized address, the geocoder's coordinates, suggested
    address and post code, and status [VERIFIED]; id and raw address are
    untouched. *)
Theorem successful_run_verifies
    (w : world F) (address_id : uuid) (store : gmap uuid (Address F))
    (a : Address F) (fields : list (string * json F)) (g : GeoResult F) :
  store !! address_id = Some a ->
  parse_address_with_ai w (original_address a) = Ret (JObj fields) ->
  fields <> [] ->
  typed_fields fields = true ->
  storable_fields fields = true ->
  geocode_address w
    (Some (kept_normalized_address (column (field fields "street_info"))
                                   (column (field fields "neighborhood"))))
    = Ret (Some g) ->
  str_or_null (g_suggested_address g) = true ->
  str_or_null (g_postal_code g) = true ->
  storable_geo g = true ->
  fst (run w address_id store) = Ret tt
  /\ commits_storable (log (snd (run w address_id store))) = true
  /\ store_after w address_id store !! address_id
     = Some (mkAddress (id a) (original_address a)
               (Some (kept_normalized_address (column (field fields "street_info"))
                                              (column (field fields "neighborhood"))))
               (column (g_suggested_address g))
               (column (field fields "street_info"))
               (column (field fields "neighborhood"))
               (column (field fields "apartment_info"))
               (column (field fields "notes"))
               (Some (g_latitude g)) (Some (g_longitude g))
               (column (g_postal_code g))
               VERIFIED).
Proof.
  intros Ha Hp Hne Hty Hst Hg Hsug Hpost Hgeo.
  pose proof (extraction_update_typed fields Hty) as Hu.
  pose proof (extraction_update_storable fields _ Hty Hst Hu) as Hok.
  assert (Ht : truthy (JObj fields) = true) by (by destruct fields).
  match type of Hu with _ = Ret ?u => set (upd := u) in * end.
  pose proof (setattrs_returns a upd NORMALIZED eq_refl eq_refl) as Hs.
  assert (Hug : update_geo g
    = Ret (mkAddressUpdate None None (Some (column (g_suggested_address g)))
             None None None None
             (Some (Some (g_latitude g))) (Some (Some (g_longitude g)))
             (Some (column (g_postal_code g))) (Some (Some VERIFIED)))).
  { unfold update_geo. by rewrite !str_or_none_column. }
  assert (Hokg : storable_update
    (mkAddressUpdate None None (Some (column (g_suggested_address g)))
       None None None None
       (Some (Some (g_latitude g))) (Some (Some (g_longitude g)))
       (Some (column (g_postal_code g))) (Some (Some VERIFIED))) = true).
  { unfold storable_geo in Hgeo. apply andb_true_iff in Hgeo as [Hg1 Hg2].
    unfold storable_update.
    cbn [u_original_address u_normalized_address u_suggested_address u_street_info
         u_neighborhood u_apartment_info u_notes u_postal_code when_set].
    by rewrite Hg1, Hg2. }
  match type of Hs with _ = Ret ?r => set (a1 := r) in * end.
  assert (Hg1 : geocode_address w (normalized_address a1) = Ret (Some g)) by exact Hg.
  unfold store_after.
  run_cases w address_id store; try congruence;
    assert (ra = a) by congruence; subst ra;
    assert (rv = JObj fields) by congruence; subst rv;
    try congruence;
    assert (rupd = upd) by congruence; subst rupd;
    assert (ra1 = a1) by congruence; subst ra1;
    try congruence.
  assert (rg = g) by congruence; subst rg.
  rewrite Hug in Rvalid. injection Rvalid as <-.
  rewrite (setattrs_returns _ _ VERIFIED) in Rset2 by done.
  injection Rset2 as <-. cbn [fst snd db log]. split; [done|]. split.
  { unfold commits_storable. cbn [forallb fst]. by rewrite Hok, Hokg. }
  by rewrite lookup_insert_eq.
Qed.

(** X3: [update_address] is a partial update: on a row that exists, given
    an update whose values the database takes, when it returns it has set
    each column the update gives to the value given and left every other
    column of the row as it was, under the same id ([updated_at], which is
    no column of a row here, is rewritten by the database); on an id that
    does not resolve it returns [None] and leaves the store as it was. *)
Theorem update_address_is_partial
    (store : gmap uuid (Address F)) (address_id : uuid) (u : AddressUpdate F) :
  (store !! address_id = None -> update_address store address_id u = Ret (store, None))
  /\ (forall a store' r,
        store !! address_id = Some a ->
        storable_update u = true ->
        update_address store address_id u = Ret (store', r) ->
        exists a',
          r = Some a'
          /\ store' = <[address_id := a']> store
          /\ id a' = id a
          /\ (u_original_address u = None -> original_address a' = original_address a)
          /\ (u_normalized_address u = None -> normalized_address a' = normalized_address a)
          /\ (u_suggested_address u = None -> suggested_address a' = suggested_address a)
          /\ (u_street_info u = None -> street_info a' = street_info a)
          /\ (u_neighborhood u = None -> neighborhood a' = neighborhood a)
          /\ (u_apartment_info u = None -> apartment_info a' = apartment_info a)
          /\ (u_notes u = None -> notes a' = notes a)
          /\ (u_latitude u = None -> latitude a' = latitude a)
          /\ (u_longitude u = None -> longitude a' = longitude a)
          /\ (u_postal_code u = None -> postal_code a' = postal_code a)
          /\ (u_status u = None -> status a' = status a)
          /\ (forall v, u_original_address u = Some (Some v) -> original_address a' = v)
          /\ (forall v, u_normalized_address u = Some v -> normalized_address a' = v)
          /\ (forall v, u_suggested_address u = Some v -> suggested_address a' = v)
          /\ (forall v, u_street_info u = Some v -> street_info a' = v)
          /\ (forall v, u_neighborhood u = Some v -> neighborhood a' = v)
          /\ (forall v, u_apartment_info u = Some v -> apartment_info a' = v)
          /\ (forall v, u_notes u = Some v -> notes a' = v)
          /\ (forall v, u_latitude u = Some v -> latitude a' = v)
          /\ (forall v, u_longitude u = Some v -> longitude a' = v)
          /\ (forall v, u_postal_code u = Some v -> postal_code a' = v)
          /\ (forall v, u_status u = Some (Some v) -> status a' = v)).
Proof.
  unfold update_address, get_address. split; [by intros ->|].
  intros a store' r -> _ Hup. unfold setattrs in Hup.
  destruct (assign_required (u_original_address u) (original_address a))
    as [original|] eqn:Ho; cbn in Hup; [|discriminate].
  destruct (assign_required (u_status u) (status a)) as [st|] eqn:Hst;
    cbn in Hup; [|discriminate].
  injection Hup as <- <-. eexists. split; [done|]. split; [done|]. cbn.
  split; [done|].
  split.
  { intros Hn. rewrite Hn in Ho. by injection Ho as <-. }
  repeat (split; [by intros -> |]).
  split.
  { intros Hn. rewrite Hn in Hst. by injection Hst as <-. }
  split.
  { intros v Hv. rewrite Hv in Ho. by injection Ho as <-. }
  repeat (split; [by intros v -> |]).
  intros v Hv. rewrite Hv in Hst. by injection Hst as <-.
Qed.

End Further.

(** ** The program on concrete inputs *)

(** C9 at work: a run on an id the store does not hold. *)
Lemma run_on_unknown_id_example :
  example_store !! 8%N = None
  /\ run world_ok 8%N example_store
     = (Ret tt, mkSession example_store [(EvQuery 8%N, example_store); (EvClose, example_store)]).
Proof.
  split; [reflexivity|].
  apply (run_on_unknown_id world_ok 8%N example_store). reflexivity.
Defined.

(** C2 at work: the extraction service sends prose, [json.loads] rejects
    it, the row stays as created. *)
Lemma extraction_failure_example :
  extraction_failed world_prose example_row = true
  /\ store_after world_prose example_id example_store = example_store.
Proof.
  split; [reflexivity|].
  apply (extraction_failure_changes_nothing world_prose example_id example_store example_row);
    reflexivity.
Defined.


(** C4 at work, on the street-only answer of the specification's example. *)
Lemma normalized_address_example :
  kept_normalized_address (Some "Carrera 44B # 13-16") None
    = "Carrera 44B # 13-16, Medellin, Colombia"
  /\ exists upd a1,
       In (EvCommit example_id upd, <[example_id := a1]> example_store)
          (log (snd (run world_ok example_id example_store)))
       /\ storable_update upd = true
       /\ u_normalized_address upd
          = Some (Some (kept_normalized_address (Some "Carrera 44B # 13-16") None))
       /\ normalized_address a1
          = Some (kept_normalized_address (Some "Carrera 44B # 13-16") None)
       /\ (Some "Carrera 44B # 13-16" <> Some EmptyString ->
           @None string <> Some EmptyString ->
           normalized_address a1
           = Some (spec_normalized_address (Some "Carrera 44B # 13-16") None)).
Proof.
  split; [reflexivity|].
  apply (normalized_address_joins_kept_parts world_ok example_id example_store
           example_row example_fields);
    [reflexivity | reflexivity | discriminate | reflexivity | reflexivity].
Defined.

(** C4 as stated fails: the extraction service names the street with the
    empty string; the pipeline commits [Medellin, Colombia], where the join
    of the non-null parts starts with a comma. *)
Lemma normalized_address_skips_empty_string :
  parse_address_with_ai world_empty_street example_raw
    = Ret (JObj [("street_info", JStr EmptyString); ("neighborhood", JNull);
                 ("apartment_info", JNull); ("notes", JNull)])
  /\ normalized_address <$> (store_after world_empty_street example_id example_store !! example_id)
     = Some (Some "Medellin, Colombia")
  /\ spec_normalized_address (Some EmptyString) None = ", Medellin, Colombia".
Proof. split; [reflexivity|]. split; reflexivity. Qed.



(** C5 at work: a timeout and an empty array. *)
Lemma geocode_address_example :
  geocode_address world_timeout (Some example_query) = Ret None
  /\ geocode_address world_no_match (Some example_query) = Ret None.
Proof.
  split.
  - apply (proj1 (proj2 (proj2 (geocode_address_outcomes world_timeout))) example_query Timeout).
    reflexivity.
  - apply (proj1 (proj2 (proj2 (proj2 (proj2 (proj2 (geocode_address_outcomes world_no_match))))))
             example_query (mkResponse 200 (Ret (JArr []))) (JArr []));
      reflexivity.
Defined.

(** C5 as stated fails: a match with coordinates and no display name gives
    a result whose suggested address is null, and a match without
    coordinates makes [float(None)] raise a [TypeError], which the handler
    for [RequestException] lets through. *)
Lemma geocoder_partial_result_and_escape :
  geocode_address world_nameless_match (Some example_query)
    = Ret (Some (mkGeoResult (mkDecimal 62443 4) (mkDecimal (-755736) 4) JNull JNull))
  /\ geocode_address world_unlocated_match (Some example_query) = Raise TypeError
  /\ fst (run world_unlocated_match example_id example_store) = Raise TypeError.
Proof. split; [reflexivity|]. split; reflexivity. Qed.



(** C7 at work: the store after a first successful run is reachable and
    its row has both coordinates. *)
Lemma verified_store_example :
  reachable verified_store
  /\ forall address_id a,
       verified_store !! address_id = Some a ->
       verified_located a /\ coordinates_paired a.
Proof.
  assert (Hreach : reachable verified_store).
  { apply (reach_run example_store world_ok example_id EvClose).
    - apply (reach_create ∅ example_id example_raw example_store example_row);
        [apply reach_empty | reflexivity].
    - destruct (final_snapshot world_ok example_id example_store) as (l & ->).
      apply in_or_app. right. left. reflexivity. }
  split; [exact Hreach|].
  exact (proj1 (verified_rows_have_coordinates verified_store Hreach)).
Defined.

(** C1 at work: from [PENDING] to [VERIFIED] in one run. *)
Lemma status_forward_example :
  StronglySorted forward
    (PENDING :: status_trail example_id (log (snd (run world_ok example_id example_store)))).
Proof.
  refine (proj1 (proj1 status_forward_from_pending_or_normalized
                   world_ok example_id example_id example_store example_row _ _));
    [reflexivity | discriminate].
Defined.

(** C1 as stated fails: a first run verifies the row; a second run, in
    which the geocoder times out, leaves it [NORMALIZED]. *)
Lemma rerun_moves_verified_back :
  status <$> (store_after_runs [(world_ok, example_id)] example_store !! example_id)
    = Some VERIFIED
  /\ status <$> (store_after_runs [(world_ok, example_id); (world_timeout, example_id)]
                   example_store !! example_id)
     = Some NORMALIZED
  /\ (rank NORMALIZED < rank VERIFIED)%nat.
Proof. split; [reflexivity|]. split; [reflexivity|]. cbn. lia. Qed.

(** C8 at work: the log of a run whose geocoder times out. *)
Lemma geocoding_order_example :
  exists a v upd a1,
    example_store !! example_id = Some a
    /\ parse_address_with_ai world_timeout (original_address a) = Ret v
    /\ truthy v = true
    /\ extraction_failed world_timeout a = false
    /\ extraction_update v = Ret upd
    /\ [(EvQuery example_id, example_store); (EvExtract example_raw, example_store);
        (EvCommit example_id example_update, normalized_store)]
       = [(EvQuery example_id, example_store); (EvExtract (original_address a), example_store);
          (EvCommit example_id upd, normalized_store)]
    /\ u_status upd = Some (Some NORMALIZED)
    /\ normalized_store = <[example_id := a1]> example_store
    /\ normalized_store !! example_id = Some a1
    /\ status a1 = NORMALIZED
    /\ normalized_address a1 = Some example_query
    /\ is_Some (Some example_query)
    /\ (forall e s,
          In (e, s) [(@EvClose decimal, normalized_store)] ->
          is_extract e = false /\ is_geocode e = false).
Proof.
  apply (geocoding_follows_committed_extraction world_timeout example_id example_store
           [(EvQuery example_id, example_store); (EvExtract example_raw, example_store);
            (EvCommit example_id example_update, normalized_store)]
           [(EvClose, normalized_store)]
           (Some example_query) normalized_store).
  reflexivity.
Defined.

(** X1 at work: a run on one row of a store with two. *)
Lemma run_leaves_other_rows_example :
  example_id <> other_id
  /\ store_after world_ok example_id two_row_store !! other_id = two_row_store !! other_id.
Proof.
  split; [discriminate|].
  apply (proj1 (run_leaves_other_rows world_ok example_id other_id two_row_store
                  ltac:(discriminate))).
Defined.

(** X2 at work: both services answer well. *)
Lemma successful_run_example :
  fst (run world_ok example_id example_store) = Ret tt
  /\ commits_storable (log (snd (run world_ok example_id example_store))) = true
  /\ store_after world_ok example_id example_store !! example_id
     = Some (mkAddress example_id example_raw (Some example_query)
               (Some "Carrera 44B, El Poblado, Medellin, Colombia")
               (Some "Carrera 44B # 13-16") None None None
               (Some (mkDecimal 62443 4)) (Some (mkDecimal (-755736) 4))
               (Some "050021") VERIFIED).
Proof.
  apply (successful_run_verifies world_ok example_id example_store example_row
           example_fields example_geo);
    [reflexivity | reflexivity | discriminate | reflexivity | reflexivity
    | reflexivity | reflexivity | reflexivity | reflexivity].
Defined.

(** ** More about one run *)

(** As [run_cases], for a second run in the same proof. *)
Ltac rerun_cases w address_id store :=
  destruct (run_shape_complete w address_id store) as
    [ Snone
    | sa se Srow Sparse
    | sa sv Srow Sparse Struthy
    | sa sv se Srow Sparse Struthy Supd
    | sa sv supd sa1 se Srow Sparse Struthy Supd Sset Sgeo
    | sa sv supd sa1 Srow Sparse Struthy Supd Sset Sgeo
    | sa sv supd sa1 sg se Srow Sparse Struthy Supd Sset Sgeo Svalid
    | sa sv supd sa1 sg supd_geo sa2 Srow Sparse Struthy Supd Sset Sgeo Svalid Sset2 ].

(** The row the second run loads is the row the first run left. *)
Ltac second_row :=
  match goal with
  | S : <[_ := _]> _ !! _ = None |- _ =>
      rewrite lookup_insert_eq in S; discriminate S
  | S : <[_ := _]> _ !! _ = Some _ |- _ =>
      rewrite lookup_insert_eq in S; injection S as <-
  end.

Section OneRun.
Context {F : Type} `{PyLib F}.

(** X4: whatever a run does, it closes its session, and it does so last:
    the log of a run that returns and of a run that raises alike ends with
    the closing of the session, on the store the run leaves, and holds no
    other closing. *)
Theorem run_always_closes_session
    (w : world F) (address_id : uuid) (store : gmap uuid (Address F)) :
  exists body,
    log (snd (run w address_id store))
      = (body ++ [(EvClose, store_after w address_id store)])%list
    /\ forall e snapshot, In (e, snapshot) body -> e <> EvClose.
Proof.
  unfold store_after.
  run_cases w address_id store; cbn.
  - exists [(EvQuery address_id, store)]. split; [done|].
    intros e s [[= <- <-]|[]]; done.
  - eexists [_; _]. split; [done|].
    intros e' s [[= <- <-]|[[= <- <-]|[]]]; done.
  - eexists [_; _]. split; [done|].
    intros e' s [[= <- <-]|[[= <- <-]|[]]]; done.
  - eexists [_; _]. split; [done|].
    intros e' s [[= <- <-]|[[= <- <-]|[]]]; done.
  - eexists [_; _; _; _]. split; [done|].
    intros e' s [[= <- <-]|[[= <- <-]|[[= <- <-]|[[= <- <-]|[]]]]]; done.
  - eexists [_; _; _; _]. split; [done|].
    intros e' s [[= <- <-]|[[= <- <-]|[[= <- <-]|[[= <- <-]|[]]]]]; done.
  - eexists [_; _; _; _]. split; [done|].
    intros e' s [[= <- <-]|[[= <- <-]|[[= <- <-]|[[= <- <-]|[]]]]]; done.
  - eexists [_; _; _; _; _]. split; [done|].
    intros e' s [[= <- <-]|[[= <- <-]|[[= <- <-]|[[= <- <-]|[[= <- <-]|[]]]]]]; done.
Qed.

Lemma identity_kept_insert
    (store : gmap uuid (Address F)) (address_id : uuid) (a a1 : Address F) :
  store !! address_id = Some a ->
  id a1 = id a ->
  original_address a1 = original_address a ->
  dom (<[address_id := a1]> store) = dom store
  /\ forall i b,
       store !! i = Some b ->
       exists b',
         <[address_id := a1]> store !! i = Some b'
         /\ id b' = id b /\ original_address b' = original_address b.
Proof.
  intros Ha Hid Horig. split.
  - by apply dom_insert_lookup_L.
  - intros i b Hb. destruct (decide (address_id = i)) as [->|Hne].
    + rewrite lookup_insert_eq. exists a1. by simplify_eq.
    + rewrite lookup_insert_ne by done. by exists b.
Qed.

(** The rows and their identity in a snapshot of a run. *)
Lemma snapshot_identity
    (w : world F) (address_id : uuid) (store : gmap uuid (Address F))
    (e : event F) (snapshot : gmap uuid (Address F)) :
  In (e, snapshot) (log (snd (run w address_id store))) ->
  dom snapshot = dom store
  /\ forall i b,
       store !! i = Some b ->
       exists b',
         snapshot !! i = Some b'
         /\ id b' = id b /\ original_address b' = original_address b.
Proof.
  intros Hin.
  run_cases w address_id store; cbn in Hin;
    repeat (destruct Hin as [[= <- <-]|Hin]);
    try (destruct Hin; fail);
    try (split; [done|]; intros i b Hb; by exists b).
  all: destruct (extraction_row _ _ _ _ Rupd Rset)
         as (_ & _ & _ & _ & _ & _ & _ & _ & _ & _ & _ & _ & Ho1 & Hi1).
  all: try (by eapply identity_kept_insert).
  all: destruct (update_geo_inv _ _ Rvalid) as (sg & pc & _ & _ & ->).
  all: rewrite (setattrs_returns _ _ VERIFIED) in Rset2 by done.
  all: injection Rset2 as <-.
  all: destruct (identity_kept_insert store address_id ra ra1 Rrow Hi1 Ho1) as (Hd1 & Hr1).
  all: split.
  all: try (rewrite <- Hd1; apply dom_insert_lookup_L; by rewrite lookup_insert_eq).
  all: intros i b Hb; destruct (Hr1 i b Hb) as (b1 & Hb1 & Hid & Horig).
  all: destruct (decide (address_id = i)) as [->|Hne].
  all: try (rewrite lookup_insert_eq; rewrite lookup_insert_eq in Hb1;
            injection Hb1 as <-; eexists; split; [done|]; cbn; done).
  all: rewrite lookup_insert_ne by done; by exists b1.
Qed.

Lemma store_after_identity
    (w : world F) (address_id : uuid) (store : gmap uuid (Address F)) :
  dom (store_after w address_id store) = dom store
  /\ forall i b,
       store !! i = Some b ->
       exists b',
         store_after w address_id store !! i = Some b'
         /\ id b' = id b /\ original_address b' = original_address b.
Proof.
  destruct (final_snapshot w address_id store) as (l & Hl).
  apply (snapshot_identity w address_id store EvClose).
  rewrite Hl. apply in_or_app. right. by left.
Qed.

(** X5: a run creates no row and deletes none, and it never changes the
    id or the raw address of a row: this holds in the store it leaves and
    in every store it commits on the way. *)
Theorem run_keeps_identity
    (w : world F) (address_id : uuid) (store : gmap uuid (Address F)) :
  (dom (store_after w address_id store) = dom store
   /\ forall i b,
        store !! i = Some b ->
        exists b',
          store_after w address_id store !! i = Some b'
          /\ id b' = id b /\ original_address b' = original_address b)
  /\ forall e snapshot,
       In (e, snapshot) (log (snd (run w address_id store))) ->
       dom snapshot = dom store
       /\ forall i b,
            store !! i = Some b ->
            exists b',
              snapshot !! i = Some b'
              /\ id b' = id b /\ original_address b' = original_address b.
Proof.
  split; [apply store_after_identity|].
  intros e snapshot. apply snapshot_identity.
Qed.

(** The extraction-success update written twice is written once. *)
Lemma extraction_update_twice (a a1 b : Address F) (v : json F) (upd : AddressUpdate F) :
  extraction_update v = Ret upd ->
  setattrs a upd = Ret a1 ->
  id b = id a ->
  original_address b = original_address a ->
  suggested_address b = suggested_address a1 ->
  latitude b = latitude a1 ->
  longitude b = longitude a1 ->
  postal_code b = postal_code a1 ->
  setattrs b upd = Ret a1.
Proof.
  intros Hu Hs Hid Ho Hsug Hlat Hlon Hpost.
  destruct (extraction_update_inv _ _ Hu)
    as (fields & st & nb & ap & nt & nm & -> & _ & _ & _ & _ & _ & ->).
  rewrite (setattrs_returns _ _ NORMALIZED) in Hs by done.
  rewrite (setattrs_returns _ _ NORMALIZED) by done.
  injection Hs as <-. cbn in *. by rewrite Hid, Ho, Hsug, Hlat, Hlon, Hpost.
Qed.

(** A second run leaves the store of the first and ends the same way. *)
Lemma second_run_same_store
    (w : world F) (address_id : uuid) (store : gmap uuid (Address F)) :
  store_after w address_id (store_after w address_id store) = store_after w address_id store
  /\ fst (run w address_id (store_after w address_id store)) = fst (run w address_id store).
Proof.
  unfold store_after.
  run_cases w address_id store; cbn [fst snd db].
  - rerun_cases w address_id store; cbn; try congruence; done.
  - rerun_cases w address_id store; cbn;
      try congruence; assert (sa = ra) by congruence; subst sa;
      try congruence; split; congruence.
  - rerun_cases w address_id store; cbn;
      try congruence; assert (sa = ra) by congruence; subst sa;
      try congruence; done.
  - rerun_cases w address_id store; cbn;
      try congruence; assert (sa = ra) by congruence; subst sa;
      try congruence; assert (sv = rv) by congruence; subst sv;
      try congruence; split; congruence.
  - destruct (extraction_row _ _ _ _ Rupd Rset)
      as (_ & _ & _ & _ & _ & _ & _ & _ & _ & _ & _ & _ & Ho1 & Hi1).
    assert (Hset : setattrs ra1 rupd = Ret ra1)
      by (by eapply extraction_update_twice).
    rerun_cases w address_id (<[address_id := ra1]> store);
      second_row; rewrite Ho1 in Sparse;
      try congruence; assert (sv = rv) by congruence; subst sv;
      try congruence; assert (supd = rupd) by congruence; subst supd;
      assert (sa1 = ra1) by congruence; subst sa1;
      try congruence; cbn; rewrite insert_insert_eq; split; congruence.
  - destruct (extraction_row _ _ _ _ Rupd Rset)
      as (_ & _ & _ & _ & _ & _ & _ & _ & _ & _ & _ & _ & Ho1 & Hi1).
    assert (Hset : setattrs ra1 rupd = Ret ra1)
      by (by eapply extraction_update_twice).
    rerun_cases w address_id (<[address_id := ra1]> store);
      second_row; rewrite Ho1 in Sparse;
      try congruence; assert (sv = rv) by congruence; subst sv;
      try congruence; assert (supd = rupd) by congruence; subst supd;
      assert (sa1 = ra1) by congruence; subst sa1;
      try congruence; cbn; rewrite insert_insert_eq; split; congruence.
  - destruct (extraction_row _ _ _ _ Rupd Rset)
      as (_ & _ & _ & _ & _ & _ & _ & _ & _ & _ & _ & _ & Ho1 & Hi1).
    assert (Hset : setattrs ra1 rupd = Ret ra1)
      by (by eapply extraction_update_twice).
    rerun_cases w address_id (<[address_id := ra1]> store);
      second_row; rewrite Ho1 in Sparse;
      try congruence; assert (sv = rv) by congruence; subst sv;
      try congruence; assert (supd = rupd) by congruence; subst supd;
      assert (sa1 = ra1) by congruence; subst sa1;
      try congruence; cbn; rewrite insert_insert_eq; split; congruence.
  - destruct (extraction_row _ _ _ _ Rupd Rset)
      as (Hn1 & _ & _ & _ & _ & _ & _ & _ & _ & _ & _ & _ & Ho1 & Hi1).
    destruct (update_geo_inv _ _ Rvalid) as (sugg & pc & _ & _ & Hug).
    pose proof Rset2 as Rset2'.
    rewrite Hug, (setattrs_returns _ _ VERIFIED) in Rset2' by done.
    injection Rset2' as Hra2.
    assert (Hset : setattrs ra2 rupd
              = Ret (mkAddress (id ra1) (original_address ra1) (normalized_address ra1)
                       (suggested_address ra2) (street_info ra1) (neighborhood ra1)
                       (apartment_info ra1) (notes ra1) (latitude ra2) (longitude ra2)
                       (postal_code ra2) NORMALIZED)).
    { destruct (extraction_update_inv _ _ Rupd)
        as (fields & st & nb & ap & nt & nm & -> & _ & _ & _ & _ & _ & ->).
      rewrite (setattrs_returns _ _ NORMALIZED) in Rset by done.
      rewrite (setattrs_returns _ _ NORMALIZED) by done.
      injection Rset as <-. by rewrite <- Hra2. }
    assert (Ho2 : original_address ra2 = original_address ra) by (by rewrite <- Hra2).
    rerun_cases w address_id (<[address_id := ra2]> (<[address_id := ra1]> store));
      second_row; rewrite Ho2 in Sparse;
      try congruence; assert (sv = rv) by congruence; subst sv;
      try congruence; assert (supd = rupd) by congruence; subst supd;
      rewrite Hset in Sset; injection Sset as <-; cbn in Sgeo;
      try congruence; assert (sg = rg) by congruence; subst sg;
      try congruence; assert (supd_geo = rupd_geo) by congruence; subst supd_geo.
    rewrite Hug, (setattrs_returns _ _ VERIFIED) in Sset2 by done.
    injection Sset2 as <-. cbn. rewrite !insert_insert_eq. split; [|done].
    f_equal. by rewrite <- Hra2.
Qed.

(** A second run makes the calls of the first, in the same order, with
    the same arguments. *)
Lemma second_run_same_events
    (w : world F) (address_id : uuid) (store : gmap uuid (Address F)) :
  fst <$> log (snd (run w address_id (store_after w address_id store)))
  = fst <$> log (snd (run w address_id store)).
Proof.
  unfold store_after.
  run_cases w address_id store; cbn [fst snd db log].
  - rerun_cases w address_id store; cbn; try congruence; done.
  - rerun_cases w address_id store; cbn;
      try congruence; assert (sa = ra) by congruence; subst sa;
      try congruence; done.
  - rerun_cases w address_id store; cbn;
      try congruence; assert (sa = ra) by congruence; subst sa;
      try congruence; done.
  - rerun_cases w address_id store; cbn;
      try congruence; assert (sa = ra) by congruence; subst sa;
      try congruence; assert (sv = rv) by congruence; subst sv;
      try congruence; done.
  - destruct (extraction_row _ _ _ _ Rupd Rset)
      as (_ & _ & _ & _ & _ & _ & _ & _ & _ & _ & _ & _ & Ho1 & Hi1).
    assert (Hset : setattrs ra1 rupd = Ret ra1)
      by (by eapply extraction_update_twice).
    rerun_cases w address_id (<[address_id := ra1]> store);
      second_row; rewrite Ho1 in Sparse;
      try congruence; assert (sv = rv) by congruence; subst sv;
      try congruence; assert (supd = rupd) by congruence; subst supd;
      assert (sa1 = ra1) by congruence; subst sa1;
      try congruence; cbn; by rewrite Ho1.
  - destruct (extraction_row _ _ _ _ Rupd Rset)
      as (_ & _ & _ & _ & _ & _ & _ & _ & _ & _ & _ & _ & Ho1 & Hi1).
    assert (Hset : setattrs ra1 rupd = Ret ra1)
      by (by eapply extraction_update_twice).
    rerun_cases w address_id (<[address_id := ra1]> store);
      second_row; rewrite Ho1 in Sparse;
      try congruence; assert (sv = rv) by congruence; subst sv;
      try congruence; assert (supd = rupd) by congruence; subst supd;
      assert (sa1 = ra1) by congruence; subst sa1;
      try congruence; cbn; by rewrite Ho1.
  - destruct (extraction_row _ _ _ _ Rupd Rset)
      as (_ & _ & _ & _ & _ & _ & _ & _ & _ & _ & _ & _ & Ho1 & Hi1).
    assert (Hset : setattrs ra1 rupd = Ret ra1)
      by (by eapply extraction_update_twice).
    rerun_cases w address_id (<[address_id := ra1]> store);
      second_row; rewrite Ho1 in Sparse;
      try congruence; assert (sv = rv) by congruence; subst sv;
      try congruence; assert (supd = rupd) by congruence; subst supd;
      assert (sa1 = ra1) by congruence; subst sa1;
      try congruence; cbn; by rewrite Ho1.
  - destruct (extraction_row _ _ _ _ Rupd Rset)
      as (Hn1 & _ & _ & _ & _ & _ & _ & _ & _ & _ & _ & _ & Ho1 & Hi1).
    destruct (update_geo_inv _ _ Rvalid) as (sugg & pc & _ & _ & Hug).
    pose proof Rset2 as Rset2'.
    rewrite Hug, (setattrs_returns _ _ VERIFIED) in Rset2' by done.
    injection Rset2' as Hra2.
    assert (Hset : setattrs ra2 rupd
              = Ret (mkAddress (id ra1) (original_address ra1) (normalized_address ra1)
                       (suggested_address ra2) (street_info ra1) (neighborhood ra1)
                       (apartment_info ra1) (notes ra1) (latitude ra2) (longitude ra2)
                       (postal_code ra2) NORMALIZED)).
    { destruct (extraction_update_inv _ _ Rupd)
        as (fields & st & nb & ap & nt & nm & -> & _ & _ & _ & _ & _ & ->).
      rewrite (setattrs_returns _ _ NORMALIZED) in Rset by done.
      rewrite (setattrs_returns _ _ NORMALIZED) by done.
      injection Rset as <-. by rewrite <- Hra2. }
    assert (Ho2 : original_address ra2 = original_address ra) by (by rewrite <- Hra2).
    rerun_cases w address_id (<[address_id := ra2]> (<[address_id := ra1]> store));
      second_row; rewrite Ho2 in Sparse;
      try congruence; assert (sv = rv) by congruence; subst sv;
      try congruence; assert (supd = rupd) by congruence; subst supd;
      rewrite Hset in Sset; injection Sset as <-; cbn in Sgeo;
      try congruence; assert (sg = rg) by congruence; subst sg;
      try congruence; assert (supd_geo = rupd_geo) by congruence; subst supd_geo.
    cbn. by rewrite Ho2.
Qed.

(** X6: with the services answering as before, running the pipeline again
    on the store a run left repeats the first run: it makes the same calls
    in the same order (the extractor and the geocoder on the same texts,
    [crud.update_address] with the same updates), ends the same way (it
    returns, or raises the same exception), and leaves every column of a
    row as the first run left it; [updated_at], which is no column of a
    row here and which the database rewrites when it executes an UPDATE,
    is the one thing the repeated updates can change. *)
Theorem run_is_idempotent
    (w : world F) (address_id : uuid) (store : gmap uuid (Address F)) :
  store_after w address_id (store_after w address_id store) = store_after w address_id store
  /\ fst (run w address_id (store_after w address_id store)) = fst (run w address_id store)
  /\ fst <$> log (snd (run w address_id (store_after w address_id store)))
     = fst <$> log (snd (run w address_id store)).
Proof.
  destruct (second_run_same_store w address_id store) as [Hstore Hend].
  split; [exact Hstore|]. split; [exact Hend|]. apply second_run_same_events.
Qed.

Lemma except_RequestException_raises {A : Type} (body : result (option A)) (e : exn) :
  except_RequestException body = Raise e ->
  body = Raise e /\ forall k, e <> RequestException k.
Proof.
  destruct body as [r|e']; cbn; [discriminate|].
  destruct e'; try discriminate; intros [= <-]; split; done.
Qed.

Lemma float_raises (x : json F) (e : exn) :
  float x = Raise e -> e = TypeError \/ e = ValueError \/ e = OverflowError.
Proof.
  destruct x as [|b|z|f|s|items|fields]; cbn;
    repeat match goal with
           | |- context [match ?o with Some _ => _ | None => _ end] => destruct o
           end;
    intros [=]; subst; tauto.
Qed.

Lemma get_default_raises (obj : json F) (key : string) (default : json F) (e : exn) :
  get_default obj key default = Raise e -> e = AttributeError.
Proof. destruct obj; cbn; intros [=]; by subst. Qed.

Lemma item0_raises (data : json F) (e : exn) :
  truthy data = true ->
  item0 data = Raise e ->
  e = TypeError \/ e = KeyError.
Proof.
  destruct data as [|b|z|f|s|[|x items]|fields]; cbn;
    try destruct s; try discriminate; intros _ [=]; subst; tauto.
Qed.

Lemma geocode_address_no_request_error (w : world F) (address : option string) (e : exn) :
  geocode_address w address = Raise e -> forall k, e <> RequestException k.
Proof.
  destruct address as [q|]; [|discriminate]. unfold geocode_address.
  destruct (String.eqb q EmptyString); [discriminate|].
  by intros (_ & Hnot)%except_RequestException_raises.
Qed.

(** X9: an exception leaves the geocoder only after a request was made on
    a non-empty address, and it is never a [RequestException]: it is what
    the request or the decoding of the response raised, or a [TypeError],
    [KeyError], [AttributeError], [ValueError] or [OverflowError] met while
    reading a true but ill-shaped body. *)
Theorem geocode_address_raises_only (w : world F) (address : option string) (e : exn) :
  geocode_address w address = Raise e ->
  (forall k, e <> RequestException k)
  /\ exists q,
       address = Some q
       /\ q <> EmptyString
       /\ (requests_get w q = Raise e
           \/ exists response,
                requests_get w q = Ret response
                /\ ~ (400 <= status_code response < 600)
                /\ (response_json response = Raise e
                    \/ exists data,
                         response_json response = Ret data
                         /\ truthy data = true
                         /\ (e = TypeError \/ e = KeyError \/ e = AttributeError
                             \/ e = ValueError \/ e = OverflowError))).
Proof.
  destruct address as [q|]; [|discriminate]. unfold geocode_address.
  destruct (String.eqb_spec q EmptyString) as [->|Hq]; [discriminate|].
  intros (Hbody & Hnot)%except_RequestException_raises.
  split; [exact Hnot|]. exists q. split; [done|]. split; [done|].
  destruct (requests_get w q) as [response|e'] eqn:Hget; cbn in Hbody;
    [|left; congruence].
  right. exists response. split; [done|].
  unfold raise_for_status in Hbody.
  destruct ((400 <=? status_code response) && (status_code response <? 600)) eqn:Hs;
    cbn in Hbody.
  { injection Hbody as <-. by destruct (Hnot HTTPError). }
  split. { apply andb_false_iff in Hs. lia. }
  destruct (response_json response) as [data|e'] eqn:Hjson; cbn in Hbody;
    [|left; congruence].
  right. exists data. split; [done|].
  destruct (truthy data) eqn:Ht; cbn in Hbody; [|discriminate].
  split; [done|].
  destruct (item0 data) as [first|e'] eqn:Hitem; cbn in Hbody.
  2: { injection Hbody as <-. destruct (item0_raises _ _ Ht Hitem); tauto. }
  destruct (get first "lat") as [lat|e'] eqn:Hlat; cbn in Hbody.
  2: { injection Hbody as <-. apply get_default_raises in Hlat. tauto. }
  destruct (float lat) as [lat_f|e'] eqn:Hlatf; cbn in Hbody.
  2: { injection Hbody as <-. apply float_raises in Hlatf. tauto. }
  destruct (get first "lon") as [lon|e'] eqn:Hlon; cbn in Hbody.
  2: { injection Hbody as <-. apply get_default_raises in Hlon. tauto. }
  destruct (float lon) as [lon_f|e'] eqn:Hlonf; cbn in Hbody.
  2: { injection Hbody as <-. apply float_raises in Hlonf. tauto. }
  destruct (get first "display_name") as [name|e'] eqn:Hname; cbn in Hbody.
  2: { injection Hbody as <-. apply get_default_raises in Hname. tauto. }
  destruct (get_default first "address" (JObj [])) as [details|e'] eqn:Hdet; cbn in Hbody.
  2: { injection Hbody as <-. apply get_default_raises in Hdet. tauto. }
  destruct (get details "postcode") as [postcode|e'] eqn:Hpost; cbn in Hbody.
  2: { injection Hbody as <-. apply get_default_raises in Hpost. tauto. }
  discriminate.
Qed.

Lemma parse_address_with_ai_raises (w : world F) (address : string) (e : exn) :
  parse_address_with_ai w address = Raise e -> get_model w = ProbeRaises e.
Proof.
  unfold parse_address_with_ai.
  destruct (get_model w); [by intros [= ->]|discriminate|].
  destruct (generate_content w address); [discriminate|].
  destruct (json_loads _); discriminate.
Qed.

Lemma strings_of_raises (parts : list (json F)) (e : exn) :
  strings_of parts = Raise e -> e = TypeError.
Proof.
  induction parts as [|x parts IH]; cbn; [discriminate|].
  destruct x; try (by intros [= <-]).
  destruct (strings_of parts); cbn; [discriminate|].
  intros [= <-]. by apply IH.
Qed.

Lemma str_or_none_raises (v : json F) (e : exn) :
  str_or_none v = Raise e -> e = ValidationError.
Proof. destruct v; cbn; intros [=]; by subst. Qed.

Lemma extraction_update_raises (v : json F) (e : exn) :
  extraction_update v = Raise e ->
  e = AttributeError \/ e = TypeError \/ e = ValidationError.
Proof.
  unfold extraction_update.
  destruct (get v "street_info") as [street|e'] eqn:E1; cbn.
  2: { intros [= <-]. apply get_default_raises in E1. tauto. }
  destruct (get v "neighborhood") as [nb|e'] eqn:E2; cbn.
  2: { intros [= <-]. apply get_default_raises in E2. tauto. }
  destruct (normalized_str street nb) as [normalized|e'] eqn:E3; cbn.
  2: { intros [= <-]. unfold normalized_str, py_join in E3.
       destruct (strings_of _) eqn:E; cbn in E3; [discriminate|].
       injection E3 as <-. apply strings_of_raises in E. tauto. }
  destruct (get v "apartment_info") as [apartment|e'] eqn:E4; cbn.
  2: { intros [= <-]. apply get_default_raises in E4. tauto. }
  destruct (get v "notes") as [note|e'] eqn:E5; cbn.
  2: { intros [= <-]. apply get_default_raises in E5. tauto. }
  unfold update_data.
  destruct (str_or_none street) eqn:S1; cbn.
  2: { intros [= <-]. apply str_or_none_raises in S1. tauto. }
  destruct (str_or_none nb) eqn:S2; cbn.
  2: { intros [= <-]. apply str_or_none_raises in S2. tauto. }
  destruct (str_or_none apartment) eqn:S3; cbn.
  2: { intros [= <-]. apply str_or_none_raises in S3. tauto. }
  destruct (str_or_none note) eqn:S4; cbn.
  2: { intros [= <-]. apply str_or_none_raises in S4. tauto. }
  discriminate.
Qed.

Lemma update_geo_raises (g : GeoResult F) (e : exn) :
  update_geo g = Raise e -> e = ValidationError.
Proof.
  unfold update_geo.
  destruct (str_or_none (g_suggested_address g)) eqn:S1; cbn.
  2: { intros [= <-]. by apply str_or_none_raises in S1. }
  destruct (str_or_none (g_postal_code g)) eqn:S2; cbn.
  2: { intros [= <-]. by apply str_or_none_raises in S2. }
  discriminate.
Qed.

(** X7: of a run whose updates are all ones the database takes (so that
    no commit is refused): when it raises, the exception is the one the
    availability probe raised, or one the geocoder raised, or an
    [AttributeError], a [TypeError] or a [ValidationError] met on an
    ill-shaped answer; a [RequestException] leaves it only when the probe
    raised it.  Such a run has committed nothing, or the extraction-success
    update alone, which leaves the row [NORMALIZED]. *)
Theorem run_raises_only
    (w : world F) (address_id : uuid) (store : gmap uuid (Address F)) (e : exn) :
  commits_storable (log (snd (run w address_id store))) = true ->
  fst (run w address_id store) = Raise e ->
  (get_model w = ProbeRaises e
   \/ e = AttributeError \/ e = TypeError \/ e = ValidationError
   \/ exists q, geocode_address w (Some q) = Raise e)
  /\ (forall k, e = RequestException k -> get_model w = ProbeRaises e)
  /\ (store_after w address_id store = store
      \/ exists a1,
           store_after w address_id store = <[address_id := a1]> store
           /\ status a1 = NORMALIZED)
  /\ (forall i u snapshot,
        In (EvCommit i u, snapshot) (log (snd (run w address_id store))) ->
        u_status u = Some (Some NORMALIZED)).
Proof.
  unfold store_after.
  run_cases w address_id store; cbn [fst snd db log]; intros _ [= <-].
  - apply parse_address_with_ai_raises in Rparse.
    split; [tauto|]. split; [done|]. split; [tauto|].
    intros i u s [[=]|[[=]|[[=]|[]]]].
  - apply extraction_update_raises in Rupd.
    split; [tauto|]. split; [intros k ->; destruct Rupd as [|[|]]; discriminate|].
    split; [tauto|].
    intros i u s [[=]|[[=]|[[=]|[]]]].
  - destruct (extraction_row _ _ _ _ Rupd Rset)
      as (_ & _ & _ & _ & _ & Hst & Hstatus & [q Hq] & _).
    rewrite Hq in Rgeo.
    pose proof (geocode_address_no_request_error _ _ _ Rgeo) as Hnot.
    split; [eauto 10|]. split; [intros k ->; by destruct (Hnot k)|].
    split; [eauto|].
    intros i u s [[=]|[[=]|[[= <- <- <-]|[[=]|[[=]|[]]]]]]. done.
  - apply update_geo_raises in Rvalid. subst re.
    destruct (extraction_row _ _ _ _ Rupd Rset)
      as (_ & _ & _ & _ & _ & Hst & Hstatus & _).
    split; [tauto|]. split; [discriminate|]. split; [eauto|].
    intros i u s [[=]|[[=]|[[= <- <- <-]|[[=]|[[=]|[]]]]]]. done.
Qed.

End OneRun.

(** ** The fenced answer, seen from the extractor *)

(** X8: when the extraction service wraps its answer in a fenced block
    (fence, the word json, a line break, the answer, a line break, fence, a
    line break) and the answer itself holds no fence, the cleaning gives
    back the answer with the white space around it removed and nothing
    else changed, so the extractor returns what [json.loads] makes of the
    bare answer ([None] when it rejects it). *)
Theorem fenced_answer_is_unwrapped
    {F : Type} `{PyLib F} (w : world F) (address body : string) :
  has_fence body = false ->
  get_model w = ProbeOk ->
  generate_content w address = GenText (fenced body) ->
  clean_response (fenced body) = strip body
  /\ parse_address_with_ai w address
     = match json_loads (strip body) with
       | Some v => Ret v
       | None => Ret JNull
       end.
Proof.
  intros Hbody Hprobe Hgen. split; [by apply clean_response_fenced|].
  unfold parse_address_with_ai. rewrite Hprobe, Hgen.
  by rewrite clean_response_fenced.
Qed.

(** ** The record store *)

Section RecordStore.
Context {F : Type}.
Variable scan : gmap uuid (Address F) -> list (Address F).
Hypothesis scan_order : table_order scan.

Lemma key_order_table : table_order (@key_order F).
Proof. by intros db. Qed.

(** The rows of a scan are the rows of the store. *)
Lemma scan_rows (db : gmap uuid (Address F)) (row : Address F) :
  In row (scan db) <-> exists i, db !! i = Some row.
Proof.
  rewrite <- list_elem_of_In, (scan_order db), list_elem_of_fmap. split.
  - intros ([i a] & -> & Hin). exists i. by apply elem_of_map_to_list in Hin.
  - intros (i & Hi). exists (i, row). split; [done|]. by apply elem_of_map_to_list.
Qed.

Lemma scan_length (db : gmap uuid (Address F)) : length (scan db) = size db.
Proof.
  rewrite (Permutation_length (scan_order db)), length_fmap.
  apply length_map_to_list.
Qed.

Lemma lookup_by_text_found
    (db : gmap uuid (Address F)) (original : string) (row : Address F) :
  get_address_by_original_address scan db original = Some row ->
  original_address row = original /\ exists i, db !! i = Some row.
Proof.
  unfold get_address_by_original_address.
  intros (Hin & Heq)%find_some. split.
  - by apply String.eqb_eq.
  - by apply scan_rows.
Qed.

Lemma lookup_by_text_none (db : gmap uuid (Address F)) (original : string) :
  get_address_by_original_address scan db original = None <-> ~ registered db original.
Proof.
  unfold get_address_by_original_address, registered. split.
  - intros Hnone (i & row & Hi & Htext).
    assert (Hin : In row (scan db)) by (apply scan_rows; eauto).
    pose proof (find_none _ _ Hnone row Hin) as Hf. cbn in Hf.
    apply String.eqb_neq in Hf. done.
  - intros Hno. destruct (find _ _) as [row|] eqn:E; [|done].
    apply find_some in E as (Hin & Heq).
    apply scan_rows in Hin as (i & Hi). apply String.eqb_eq in Heq.
    destruct Hno. eauto.
Qed.


(** X11: for a non-negative [skip] and [limit], a page holds rows of the
    store only, and as many as the limit allows of those that are left
    after the skipped ones; from [skip = 0] with a limit of at least the
    size of the table it is the whole table, which [get_all_addresses]
    returns with one entry per row.  A negative [skip] or [limit] raises. *)
Theorem get_addresses_page (db : gmap uuid (Address F)) (skip limit : Z) :
  (0 <= skip -> 0 <= limit ->
   exists page,
     get_addresses scan db skip limit = Ret page
     /\ length page = Nat.min (Z.to_nat limit) (size db - Z.to_nat skip)
     /\ (forall row, In row page -> exists i, db !! i = Some row)
     /\ (skip = 0 -> Z.of_nat (size db) <= limit -> page = get_all_addresses scan db))
  /\ (skip < 0 \/ limit < 0 -> exists e, get_addresses scan db skip limit = Raise e)
  /\ length (get_all_addresses scan db) = size db
  /\ (forall row, In row (get_all_addresses scan db) <-> exists i, db !! i = Some row).
Proof.
  unfold get_addresses, get_all_addresses. split; [|split; [|split]].
  - intros Hs Hl.
    destruct (skip <? 0) eqn:E1; [lia|]. destruct (limit <? 0) eqn:E2; [lia|]. cbn.
    eexists. split; [done|]. split; [|split].
    + by rewrite length_take, length_drop, scan_length.
    + intros row Hin. apply scan_rows.
      apply list_elem_of_In in Hin. apply list_elem_of_In.
      apply elem_of_take in Hin as (k & Hk & _).
      rewrite lookup_drop in Hk. by eapply list_elem_of_lookup_2.
    + intros -> Hall. cbn. apply take_ge. rewrite scan_length. lia.
  - intros [Hs|Hl].
    + destruct (skip <? 0) eqn:E1; [|lia]. cbn. eauto.
    + destruct (limit <? 0) eqn:E2; [|lia]. rewrite orb_true_r. eauto.
  - apply scan_length.
  - apply scan_rows.
Qed.

End RecordStore.

Section Crud.
Context {F : Type}.


End Crud.

(** ** The endpoints *)

Section Api.
Context {F : Type} `{PyLib F}.
Variable scan : gmap uuid (Address F) -> list (Address F).
Hypothesis scan_order : table_order scan.

Lemma registered_mono (db db' : gmap uuid (Address F)) (original : string) :
  (forall i a, db !! i = Some a -> db' !! i = Some a) ->
  registered db original -> registered db' original.
Proof. intros Hsub (i & row & Hi & Ht). exists i, row. eauto. Qed.

Lemma unique_insert_new
    (db : gmap uuid (Address F)) (fresh : uuid) (original : string) :
  unique_originals db ->
  ~ registered db original ->
  unique_originals (<[fresh := new_address fresh original]> db).
Proof.
  intros Hu Hno i j a b Hi Hj Heq.
  destruct (decide (fresh = i)) as [Ei|Hni], (decide (fresh = j)) as [Ej|Hnj];
    subst; [done|..].
  - rewrite lookup_insert_eq in Hi. rewrite lookup_insert_ne in Hj by done.
    injection Hi as <-. destruct Hno. unfold registered. exists j, b. by split.
  - rewrite lookup_insert_eq in Hj. rewrite lookup_insert_ne in Hi by done.
    injection Hj as <-. destruct Hno. unfold registered. exists i, a. by split.
  - rewrite lookup_insert_ne in Hi, Hj by done. by eapply Hu.
Qed.

Lemma keyed_insert_new
    (db : gmap uuid (Address F)) (fresh : uuid) (original : string) :
  keyed db -> keyed (<[fresh := new_address fresh original]> db).
Proof.
  intros Hk i a. destruct (decide (fresh = i)) as [->|Hne].
  - rewrite lookup_insert_eq. by intros [= <-].
  - rewrite lookup_insert_ne by done. apply Hk.
Qed.


(** The loop of the upload keeps the two invariants of the store, whatever
    the cells and the ids. *)
Lemma import_rows_invariants (uuid4 : nat -> uuid) (cells : list value) :
  forall (db : gmap uuid (Address F)) (c s : nat) (tasks : list uuid),
    unique_originals db -> keyed db ->
    unique_originals (snd (fst (import_rows scan uuid4 cells db c s tasks)))
    /\ keyed (snd (fst (import_rows scan uuid4 cells db c s tasks))).
Proof.
  induction cells as [|[t|e] cells IH]; intros db c s tasks Hu Hk; cbn; [done| |done].
  destruct (get_address_by_original_address scan db t) eqn:E; [by apply IH|].
  apply (lookup_by_text_none scan scan_order) in E.
  unfold create_address. destruct (db !! uuid4 c); [done|].
  apply IH; [by apply unique_insert_new | by apply keyed_insert_new].
Qed.

Lemma invariants_after_run
    (w : world F) (address_id : uuid) (db : gmap uuid (Address F)) :
  unique_originals db -> keyed db ->
  unique_originals (store_after w address_id db) /\ keyed (store_after w address_id db).
Proof.
  intros Hu Hk.
  destruct (store_after_identity w address_id db) as (Hdom & Hrows).
  assert (Hback : forall i a', store_after w address_id db !! i = Some a' ->
            exists a, db !! i = Some a
                      /\ id a' = id a /\ original_address a' = original_address a).
  { intros i a' Hi.
    assert (Hin : i ∈ dom db) by (rewrite <- Hdom; by apply elem_of_dom_2 in Hi).
    apply elem_of_dom in Hin as (a & Ha).
    destruct (Hrows i a Ha) as (b' & Hb' & Hid & Ho).
    exists a. split; [done|]. by simplify_eq. }
  split.
  - intros i j a' b' Hi Hj Heq.
    destruct (Hback i a' Hi) as (a & Ha & _ & Hoa).
    destruct (Hback j b' Hj) as (b & Hb & _ & Hob).
    eapply Hu; [done|done|congruence].
  - intros i a' Hi. destruct (Hback i a' Hi) as (a & Ha & Hid & _).
    rewrite Hid. by apply Hk.
Qed.

(** X14: in every store reached through POST /addresses/, POST /upload,
    DELETE and pipeline runs, no two rows hold the same raw text and each
    row is stored under its own id. *)
Theorem served_keeps_texts_unique (db : gmap uuid (Address F)) :
  served scan db -> unique_originals db /\ keyed db.
Proof.
  induction 1 as
    [ | db fresh original _ [Hu Hk] | db uuid4 file _ [Hu Hk]
      | db address_id _ [Hu Hk] | db w address_id _ [Hu Hk] ].
  - split; intros i; intros; by rewrite lookup_empty in *.
  - unfold create_address_endpoint.
    destruct (get_address_by_original_address scan db original) eqn:E; [done|].
    apply (lookup_by_text_none scan scan_order) in E.
    unfold create_address. destruct (db !! fresh); [done|]. cbn.
    split; [by apply unique_insert_new | by apply keyed_insert_new].
  - unfold upload_file_endpoint.
    destruct (filename file) as [name|]; [|done].
    destruct (negb _); [done|].
    destruct (if endswith name ".xlsx" then read_excel file else read_csv file)
      as [df|e]; [|done].
    destruct (find _ address_columns) as [col|]; [|done].
    pose proof (import_rows_invariants uuid4 (dropna (series df col)) db 0 0 [] Hu Hk)
      as Hinv.
    by destruct (import_rows scan uuid4 (dropna (series df col)) db 0 0 [])
      as [[[[c s]|e] db'] tasks].
  - unfold delete_address_endpoint, delete_address, get_address.
    destruct (db !! address_id) as [row|] eqn:E; [|done]. cbn. split.
    + intros i j a b Hi%lookup_delete_Some Hj%lookup_delete_Some.
      apply Hu; tauto.
    + intros i a Hi%lookup_delete_Some. apply Hk; tauto.
  - by apply invariants_after_run.
Qed.

End Api.

(** ** The upload *)

Section Upload.
Context {F : Type}.
Variable scan : gmap uuid (Address F) -> list (Address F).
Hypothesis scan_order : table_order scan.
Variable uuid4 : nat -> uuid.
Hypothesis uuid4_distinct : forall m n, uuid4 m = uuid4 n -> m = n.

(** The loop over cells that are all strings, with ids that are free. *)
Lemma import_rows_texts (cells : list value) :
  forall (db : gmap uuid (Address F)) (c s : nat) (tasks : list uuid),
    all_text cells = true ->
    (forall n, (c <= n)%nat -> db !! uuid4 n = None) ->
    exists c' s' db',
      import_rows scan uuid4 cells db c s tasks
        = (Ret (c', s'), db', (tasks ++ (uuid4 <$> seq c (c' - c)))%list)
      /\ (c <= c')%nat /\ (s <= s')%nat
      /\ ((c' - c) + (s' - s) = length cells)%nat
      /\ (forall n, (c' <= n)%nat -> db' !! uuid4 n = None)
      /\ (forall i a, db !! i = Some a -> db' !! i = Some a)
      /\ (forall i a,
            db' !! i = Some a ->
            db !! i = Some a
            \/ exists t, In t (texts cells) /\ a = new_address i t /\ ~ registered db t)
      /\ (forall t, In t (texts cells) -> registered db' t).
Proof.
  induction cells as [|[t|e] cells IH]; intros db c s tasks Hall Hfree; cbn in *;
    [| |discriminate].
  - exists c, s, db. rewrite Nat.sub_diag, app_nil_r.
    repeat split; eauto; [lia|]. intros t [].
  - destruct (get_address_by_original_address scan db t) as [row|] eqn:E.
    + destruct (IH db c (S s) tasks Hall Hfree)
        as (c' & s' & db' & -> & Hc & Hs & Hlen & Hfree' & Hkeep & Hnew & Hreg).
      exists c', s', db'. split; [done|]. split; [lia|]. split; [lia|].
      split; [lia|]. split; [done|]. split; [done|]. split.
      * intros i a Hi. destruct (Hnew i a Hi) as [|(t' & Ht' & Ha & Hno)]; eauto 10.
      * intros t' [<-|Ht']; [|eauto].
        apply (lookup_by_text_found scan scan_order) in E as (Heq & i & Hi).
        apply (registered_mono db); [done|]. exists i, row. eauto.
    + apply (lookup_by_text_none scan scan_order) in E.
      unfold create_address. rewrite (Hfree c) by lia. cbn.
      set (db1 := <[uuid4 c := new_address (uuid4 c) t]> db).
      assert (Hfree1 : forall n, (S c <= n)%nat -> db1 !! uuid4 n = None).
      { intros n Hn. unfold db1. rewrite lookup_insert_ne.
        - apply Hfree. lia.
        - intros Heq%uuid4_distinct. lia. }
      assert (Hsub : forall i a, db !! i = Some a -> db1 !! i = Some a).
      { intros i a Hi. unfold db1. rewrite lookup_insert_ne; [done|].
        intros <-. rewrite (Hfree c) in Hi by lia. discriminate. }
      destruct (IH db1 (S c) s (tasks ++ [uuid4 c])%list Hall Hfree1)
        as (c' & s' & db' & -> & Hc & Hs & Hlen & Hfree' & Hkeep & Hnew & Hreg).
      exists c', s', db'. split.
      { f_equal. rewrite <- app_assoc. f_equal.
        replace (c' - c)%nat with (S (c' - S c)) by lia. done. }
      split; [lia|]. split; [lia|]. split; [lia|]. split; [done|].
      split; [eauto|]. split.
      * intros i a Hi. destruct (Hnew i a Hi) as [Hi1|(t' & Ht' & Ha & Hno)].
        -- unfold db1 in Hi1. destruct (decide (uuid4 c = i)) as [<-|Hne].
           ++ rewrite lookup_insert_eq in Hi1. injection Hi1 as <-. eauto 10.
           ++ rewrite lookup_insert_ne in Hi1 by done. eauto.
        -- right. exists t'. repeat split; eauto.
           intros Hr. apply Hno. by eapply registered_mono.
      * intros t' [<-|Ht']; [|eauto].
        apply (registered_mono db1); [done|].
        exists (uuid4 c), (new_address (uuid4 c) t). unfold db1.
        by rewrite lookup_insert_eq.
Qed.

(** The loop over a list of cells in two parts. *)
Lemma import_rows_app (front back : list value) :
  forall (db : gmap uuid (Address F)) (c s : nat) (tasks : list uuid) c' s' db' tasks',
    import_rows scan uuid4 front db c s tasks = (Ret (c', s'), db', tasks') ->
    import_rows scan uuid4 (front ++ back)%list db c s tasks
    = import_rows scan uuid4 back db' c' s' tasks'.
Proof.
  induction front as [|[t|e] front IH]; intros db c s tasks c' s' db' tasks'; cbn.
  - by intros [= -> -> -> ->].
  - destruct (get_address_by_original_address scan db t); [apply IH|].
    destruct (create_address db (uuid4 c) t) as [[db1 new]|]; [apply IH|discriminate].
  - discriminate.
Qed.

(** X15: POST /upload answers 400 only for a file name that ends neither
    with .xlsx nor with .csv, before anything is read or stored; when the
    data frame has none of the four address columns, the 400 the endpoint
    raises for it is caught by its own handler and the answer is a 500 that
    carries it, with nothing stored; an error of the reading gives a 500 as
    well; and the only exception the endpoint leaves unhandled is the
    [AttributeError] of a file without a name. *)
Theorem upload_error_statuses (db : gmap uuid (Address F)) (file : upload_file) :
  (forall d,
     reply (upload_file_endpoint scan uuid4 db file) = HTTPException 400 d ->
     exists name,
       filename file = Some name
       /\ endswith name ".xlsx" = false /\ endswith name ".csv" = false
       /\ upload_file_endpoint scan uuid4 db file
          = mkHandled
              (HTTPException 400 (Detail "Formato de archivo no soportado. Use .xlsx o .csv"))
              db [])
  /\ (forall name df,
        filename file = Some name ->
        endswith name ".xlsx" || endswith name ".csv" = true ->
        read_by_name file name = Ret df ->
        (forall col, In col address_columns -> ~ In col (columns df)) ->
        upload_file_endpoint scan uuid4 db file
        = mkHandled
            (HTTPException 500
               (ProcessingError
                  (CauseHTTP 400
                     "El archivo debe contener una columna llamada 'direccion' o 'address'.")))
            db [])
  /\ (forall name e,
        filename file = Some name ->
        endswith name ".xlsx" || endswith name ".csv" = true ->
        read_by_name file name = Raise e ->
        upload_file_endpoint scan uuid4 db file
        = mkHandled (HTTPException 500 (ProcessingError (CauseException e))) db [])
  /\ (forall e,
        reply (upload_file_endpoint scan uuid4 db file) = Unhandled e ->
        filename file = None /\ e = AttributeError).
Proof.
  unfold upload_file_endpoint. split; [|split; [|split]].
  - intros d. destruct (filename file) as [name|]; [|discriminate].
    destruct (endswith name ".xlsx" || endswith name ".csv") eqn:Hext; cbn [negb].
    + fold (read_by_name file name). destruct (read_by_name file name) as [df|e]; [|discriminate].
      destruct (find _ address_columns); [|discriminate].
      by destruct (import_rows _ _ _ _ _ _ _) as [[[[c0 s0]|e0] db0] tasks0].
    + intros _. apply orb_false_iff in Hext as [H1 H2]. by exists name.
  - intros name df -> -> Hread Hnone. cbn [negb]. unfold read_by_name in Hread. rewrite Hread.
    destruct (find _ address_columns) as [col|] eqn:E; [|done].
    apply find_some in E as (Hin & Hex).
    apply existsb_exists in Hex as (col' & Hin' & Heq%String.eqb_eq). subst col'.
    by destruct (Hnone col Hin).
  - intros name e -> -> Hread. cbn [negb]. unfold read_by_name in Hread. by rewrite Hread.
  - intros e. destruct (filename file) as [name|]; [|by intros [= <-]].
    destruct (negb _); [discriminate|].
    fold (read_by_name file name). destruct (read_by_name file name) as [df|e']; [|discriminate].
    destruct (find _ address_columns); [|discriminate].
    by destruct (import_rows _ _ _ _ _ _ _) as [[[[c0 s0]|e0] db0] tasks0].
Qed.

(** X16: when the file has an accepted name, is read, has an address
    column, and the cells of the first such column that are not missing
    are all strings, POST /upload (with ids that are free and distinct)
    answers with the counts of rows created and skipped, which add up to
    the number of those cells, and with the number of rows of the frame;
    it hands one pipeline run per created row to the background tasks, in
    order; it leaves every former row as it was; every text of the column
    is then the raw text of a row; and each added row is the fresh
    [PENDING] row of a text of the column that was not registered. *)
Theorem upload_accounting
    (db : gmap uuid (Address F)) (file : upload_file)
    (name col : string) (df : dataframe) :
  (forall n, db !! uuid4 n = None) ->
  filename file = Some name ->
  endswith name ".xlsx" || endswith name ".csv" = true ->
  read_by_name file name = Ret df ->
  List.find (fun c => existsb (String.eqb c) (columns df)) address_columns = Some col ->
  all_text (dropna (series df col)) = true ->
  exists created skipped db',
    upload_file_endpoint scan uuid4 db file
    = mkHandled
        (Responded
           (mkSummary
              ("Archivo '" ++ name ++ "' aceptado. Se iniciaron " ++ pretty created
                 ++ " nuevas tareas de procesamiento.")
              (n_rows df) created skipped))
        db' (uuid4 <$> seq 0 created)
    /\ (created + skipped = length (dropna (series df col)))%nat
    /\ (forall i a, db !! i = Some a -> db' !! i = Some a)
    /\ (forall t, In t (texts (dropna (series df col))) -> registered db' t)
    /\ (forall i a,
          db' !! i = Some a ->
          db !! i = Some a
          \/ exists t,
               In t (texts (dropna (series df col)))
               /\ a = new_address i t /\ ~ registered db t).
Proof.
  intros Hfree Hname Hext Hread Hcol Hall.
  destruct (import_rows_texts (dropna (series df col)) db 0 0 [] Hall)
    as (c & s & db' & Himp & _ & _ & Hlen & _ & Hkeep & Hnew & Hreg);
    [by intros|].
  exists c, s, db'. unfold upload_file_endpoint.
  unfold read_by_name in Hread.
  rewrite Hname, Hext; cbn [negb]. rewrite Hread, Hcol, Himp. rewrite Nat.sub_0_r.
  repeat split; eauto. lia.
Qed.

(** X17: the upload is not all or nothing: when, after cells that are
    strings, a cell that is no string makes the lookup or the validation
    raise, the answer is a 500 that carries the exception, and the rows
    created for the cells before it stay in the store, beside all the
    former rows. *)
Theorem upload_partial_import
    (db : gmap uuid (Address F)) (file : upload_file)
    (name col : string) (df : dataframe)
    (before : list string) (e : exn) (after : list value) :
  (forall n, db !! uuid4 n = None) ->
  filename file = Some name ->
  endswith name ".xlsx" || endswith name ".csv" = true ->
  read_by_name file name = Ret df ->
  List.find (fun c => existsb (String.eqb c) (columns df)) address_columns = Some col ->
  dropna (series df col) = ((Text <$> before) ++ NotText e :: after)%list ->
  reply (upload_file_endpoint scan uuid4 db file)
    = HTTPException 500 (ProcessingError (CauseException e))
  /\ (forall i a,
        db !! i = Some a ->
        database (upload_file_endpoint scan uuid4 db file) !! i = Some a)
  /\ (forall t,
        In t before ->
        registered (database (upload_file_endpoint scan uuid4 db file)) t).
Proof.
  intros Hfree Hname Hext Hread Hcol Hcells.
  assert (Hall : all_text (Text <$> before) = true).
  { clear. unfold all_text. induction before as [|t before IH]; cbn; done. }
  assert (Htexts : texts (Text <$> before) = before).
  { clear. unfold texts. induction before as [|t before IH]; cbn; [done|].
    f_equal. exact IH. }
  destruct (import_rows_texts (Text <$> before) db 0 0 [] Hall)
    as (c & s & db' & Himp & _ & _ & _ & _ & Hkeep & _ & Hreg);
    [by intros|].
  rewrite Htexts in Hreg.
  unfold upload_file_endpoint.
  unfold read_by_name in Hread.
  rewrite Hname, Hext; cbn [negb]. rewrite Hread, Hcol, Hcells.
  rewrite (import_rows_app _ _ _ _ _ _ _ _ _ _ Himp). cbn. eauto.
Qed.

End Upload.

(** ** PUT /addresses/{address_id} *)

Section Put.
Context {F : Type}.

(** X18: PUT /addresses/{address_id} hands nothing to the background
    tasks and answers 404 exactly when the id does not resolve, leaving the
    store as it was.  For a body whose values the database takes (no NUL
    in a text, at most ten characters in the post code): the only
    exception it leaves unhandled is the integrity error of a body that
    sets [original_address] or [status] to null, the store staying as it
    was; and when it answers with a row, that row is what
    GET /addresses/{address_id} returns afterwards, every other row being
    untouched. *)
Theorem update_address_endpoint_outcomes
    (db : gmap uuid (Address F)) (address_id : uuid) (u : AddressUpdate F) :
  background_tasks (update_address_endpoint db address_id u) = []
  /\ (reply (update_address_endpoint db address_id u)
        = HTTPException 404 (Detail "Address not found")
      <-> db !! address_id = None)
  /\ (forall status d,
        reply (update_address_endpoint db address_id u) = HTTPException status d ->
        status = 404 /\ database (update_address_endpoint db address_id u) = db)
  /\ (forall e,
        storable_update u = true ->
        reply (update_address_endpoint db address_id u) = Unhandled e ->
        e = IntegrityError
        /\ (u_original_address u = Some None \/ u_status u = Some None)
        /\ database (update_address_endpoint db address_id u) = db)
  /\ (forall row,
        storable_update u = true ->
        reply (update_address_endpoint db address_id u) = Responded row ->
        read_address_endpoint (database (update_address_endpoint db address_id u)) address_id
          = Responded row
        /\ (exists old, db !! address_id = Some old /\ id row = id old)
        /\ forall i,
             i <> address_id ->
             database (update_address_endpoint db address_id u) !! i = db !! i).
Proof.
  unfold update_address_endpoint, update_address, read_address_endpoint, get_address, setattrs.
  destruct (db !! address_id) as [old|] eqn:Hold; cbn.
  2: { split; [done|]. split; [done|]. split; [by intros ? ? [= <- <-]|]. by split. }
  destruct (u_original_address u) as [[original|]|] eqn:Ho; cbn;
    destruct (u_status u) as [[st|]|] eqn:Hst; cbn.
  all: split; [done|]; split; [by split|]; split; [done|]; split;
    [ first [done | intros e _ [= <-]; split; [done|]; split; [eauto|done]] |].
  all: try done.
  all: intros row _ [= <-]; rewrite lookup_insert_eq; split; [done|]; split; [by exists old|].
  all: intros i Hi; by rewrite lookup_insert_ne.
Qed.

(** X19: PUT checks neither the raw text nor the status it is given:
    with the raw text of another row it leaves two rows with one text,
    and with [VERIFIED] it verifies a row that has no coordinates. *)
Theorem update_address_endpoint_checks_nothing
    (db : gmap uuid (Address F)) (i j : uuid) (a b : Address F) :
  db !! i = Some a ->
  db !! j = Some b ->
  i <> j ->
  (exists a',
     reply (update_address_endpoint db i (only_original_address (original_address b)))
       = Responded a'
     /\ original_address a' = original_address b
     /\ database (update_address_endpoint db i (only_original_address (original_address b)))
        !! j = Some b
     /\ ~ unique_originals
            (database (update_address_endpoint db i
                         (only_original_address (original_address b)))))
  /\ (exists a',
        reply (update_address_endpoint db i (only_status VERIFIED)) = Responded a'
        /\ status a' = VERIFIED
        /\ latitude a' = latitude a /\ longitude a' = longitude a
        /\ (latitude a = None -> ~ verified_located a')).
Proof.
  intros Hi Hj Hne.
  unfold update_address_endpoint, update_address, get_address, setattrs. rewrite Hi. cbn.
  split.
  - eexists. split; [done|]. split; [done|].
    rewrite lookup_insert_ne by done. split; [done|].
    intros Hu. apply Hne. eapply Hu.
    + apply lookup_insert_eq.
    + rewrite lookup_insert_ne by done. exact Hj.
    + done.
  - eexists. split; [done|]. cbn. split; [done|]. split; [done|]. split; [done|].
    intros Hnone Hv. destruct (Hv eq_refl) as [[x Hx] _]. cbn in Hx. congruence.
Qed.

End Put.

(** ** From POST /addresses/ to the end of the queued run *)

Section CreatedThenRun.
Context {F : Type} `{PyLib F}.
Variable scan : gmap uuid (Address F) -> list (Address F).
Hypothesis scan_order : table_order scan.


End CreatedThenRun.

(** ** The endpoints and the services on concrete inputs *)

Lemma example_uuid4_distinct (m n : nat) : example_uuid4 m = example_uuid4 n -> m = n.
Proof. unfold example_uuid4. lia. Qed.

Lemma example_uuid4_free (n : nat) : example_store !! example_uuid4 n = None.
Proof. apply lookup_singleton_ne. unfold example_uuid4, example_id. lia. Qed.

(** X7 at work: the geocoder's match has no coordinates, [float(None)]
    raises, and the row stays [NORMALIZED]. *)
Lemma run_raises_only_example :
  commits_storable (log (snd (run world_unlocated_match example_id example_store))) = true
  /\ fst (run world_unlocated_match example_id example_store) = Raise TypeError
  /\ (store_after world_unlocated_match example_id example_store = example_store
      \/ exists a1,
           store_after world_unlocated_match example_id example_store
           = <[example_id := a1]> example_store
           /\ status a1 = NORMALIZED).
Proof.
  split; [reflexivity|]. split; [reflexivity|].
  destruct (run_raises_only world_unlocated_match example_id example_store TypeError)
    as (_ & _ & Hstore & _); [reflexivity|reflexivity|exact Hstore].
Defined.

(** X8 at work, on the fenced answer of [world_ok]. *)
Lemma fenced_answer_example :
  has_fence (four_fields "Carrera 44B # 13-16") = false
  /\ clean_response (fenced (four_fields "Carrera 44B # 13-16"))
     = four_fields "Carrera 44B # 13-16"
  /\ parse_address_with_ai world_ok example_raw = Ret (JObj example_fields).
Proof.
  split; [reflexivity|].
  destruct (fenced_answer_is_unwrapped world_ok example_raw
              (four_fields "Carrera 44B # 13-16") eq_refl eq_refl eq_refl)
    as [Hclean Hparse].
  split; [exact Hclean|exact Hparse].
Defined.

(** X9 at work: the same match, seen from the geocoder. *)
Lemma geocode_address_raises_example :
  geocode_address world_unlocated_match (Some example_query) = Raise TypeError
  /\ requests_get world_unlocated_match example_query
     = Ret (mkResponse 200
              (Ret (JArr [JObj [("display_name", JStr "Medellin, Colombia")]])))
  /\ forall k, TypeError <> RequestException k.
Proof.
  split; [reflexivity|]. split; [reflexivity|].
  destruct (geocode_address_raises_only world_unlocated_match (Some example_query) TypeError)
    as [Hnot _]; [reflexivity|exact Hnot].
Defined.


(** X11 at work: the first page of a table of two rows. *)
Lemma get_addresses_example :
  table_order (@key_order decimal)
  /\ exists page,
       get_addresses key_order two_row_store 0 100 = Ret page
       /\ length page = 2%nat
       /\ page = get_all_addresses key_order two_row_store.
Proof.
  split; [apply key_order_table|].
  destruct (get_addresses_page key_order key_order_table two_row_store 0 100)
    as [Hpage _].
  destruct Hpage as (page & Hp & Hlen & _ & Hall); [lia|lia|].
  exists page. split; [exact Hp|]. split; [exact Hlen|].
  apply Hall; [reflexivity|]. vm_compute. discriminate.
Defined.


(** X14 at work, on the store after a creation and an upload. *)
Lemma served_store_example :
  served key_order served_store
  /\ unique_originals served_store /\ keyed served_store.
Proof.
  assert (Hserved : served key_order served_store).
  { apply served_upload, served_create, served_empty. }
  split; [exact Hserved|].
  apply (served_keeps_texts_unique key_order key_order_table served_store Hserved).
Defined.

(** X16 at work: one text of the sheet is known, one is new, one cell is
    missing. *)
Lemma upload_accounting_example :
  all_text (dropna (series example_frame "address")) = true
  /\ exists created skipped db',
       upload_file_endpoint key_order example_uuid4 example_store example_upload
       = mkHandled
           (Responded
              (mkSummary
                 ("Archivo '" ++ "direcciones.csv" ++ "' aceptado. Se iniciaron "
                    ++ pretty created ++ " nuevas tareas de procesamiento.")
                 3 created skipped))
           db' (example_uuid4 <$> seq 0 created)
       /\ (created + skipped = 2)%nat.
Proof.
  split; [reflexivity|].
  destruct (upload_accounting key_order key_order_table example_uuid4 example_uuid4_distinct
              example_store example_upload "direcciones.csv" "address" example_frame
              example_uuid4_free eq_refl eq_refl eq_refl eq_refl eq_refl)
    as (created & skipped & db' & Hreply & Hsum & _).
  exists created, skipped, db'. split; [exact Hreply|exact Hsum].
Defined.

(** X17 at work: the second cell of the column is a number. *)
Lemma upload_partial_import_example :
  dropna (series mixed_frame "direccion")
    = [Text "Calle 10 # 5-20"; NotText (OtherException "ProgrammingError")]
  /\ reply (upload_file_endpoint key_order example_uuid4 example_store mixed_upload)
     = HTTPException 500
         (ProcessingError (CauseException (OtherException "ProgrammingError")))
  /\ registered
       (database (upload_file_endpoint key_order example_uuid4 example_store mixed_upload))
       "Calle 10 # 5-20".
Proof.
  split; [reflexivity|].
  destruct (upload_partial_import key_order key_order_table example_uuid4
              example_uuid4_distinct example_store mixed_upload "clientes.xlsx" "direccion"
              mixed_frame ["Calle 10 # 5-20"] (OtherException "ProgrammingError") []
              example_uuid4_free eq_refl eq_refl eq_refl eq_refl eq_refl)
    as (Hreply & _ & Hreg).
  split; [exact Hreply|]. apply Hreg. left. reflexivity.
Defined.

(** X19 at work: a created row is verified by hand. *)
Lemma put_checks_nothing_example :
  two_row_store !! example_id = Some example_row
  /\ two_row_store !! other_id = Some (new_address other_id "Cra72a#113-21 2do piso")
  /\ exists a',
       reply (update_address_endpoint two_row_store example_id (only_status VERIFIED))
         = Responded a'
       /\ status a' = VERIFIED
       /\ latitude a' = latitude example_row
       /\ longitude a' = longitude example_row.
Proof.
  split; [reflexivity|]. split; [reflexivity|].
  destruct (update_address_endpoint_checks_nothing two_row_store example_id other_id
              example_row (new_address other_id "Cra72a#113-21 2do piso"))
    as (_ & a' & Hreply & Hstatus & Hlat & Hlon & _);
    [reflexivity|reflexivity|discriminate|].
  exists a'. split; [exact Hreply|]. split; [exact Hstatus|]. split; [exact Hlat|exact Hlon].
Defined.


(** X3 at work: a body that sets the neighborhood and the post code. *)
Lemma update_address_example :
  storable_update example_body = true
  /\ exists a',
       update_address example_store example_id example_body
       = Ret (<[example_id := a']> example_store, Some a')
       /\ id a' = example_id
       /\ original_address a' = example_raw
       /\ neighborhood a' = Some "El Poblado"
       /\ postal_code a' = Some "050021"
       /\ status a' = PENDING.
Proof.
  split; [reflexivity|].
  destruct (proj2 (update_address_is_partial example_store example_id example_body)
              example_row
              (<[example_id := mkAddress example_id example_raw None None None
                                 (Some "El Poblado") None None None None (Some "050021")
                                 PENDING]> example_store)
              (Some (mkAddress example_id example_raw None None None
                       (Some "El Poblado") None None None None (Some "050021") PENDING))
              eq_refl eq_refl eq_refl)
    as (a' & Hr & _ & Hid & Horiginal & _ & _ & _ & _ & _ & _ & _ & _ & _ & Hstatus
        & _ & _ & _ & _ & Hnb & _ & _ & _ & _ & Hpc & _).
  injection Hr as <-. eexists. split; [reflexivity|].
  split; [exact Hid|]. split; [exact (Horiginal eq_refl)|].
  split; [exact (Hnb _ eq_refl)|]. split; [exact (Hpc _ eq_refl)|]. exact (Hstatus eq_refl).
Defined.

(** X18 at work: the same body sent by PUT, then GET. *)
Lemma update_address_endpoint_example :
  storable_update example_body = true
  /\ exists row,
       reply (update_address_endpoint example_store example_id example_body) = Responded row
       /\ read_address_endpoint
            (database (update_address_endpoint example_store example_id example_body))
            example_id
          = Responded row
       /\ background_tasks (update_address_endpoint example_store example_id example_body) = [].
Proof.
  split; [reflexivity|].
  destruct (update_address_endpoint_outcomes example_store example_id example_body)
    as (Htasks & _ & _ & _ & Hrow).
  eexists. split; [reflexivity|]. split; [|exact Htasks].
  apply Hrow; reflexivity.
Defined.
